(** * poverlap: a shallow embedding of [poverlap.py] and its properties

    The program is a Python 2 script.  Files are modelled by the list of
    lines that iterating over them yields (each line with its terminator),
    Python exceptions by an error monad, the [random] module by a tape of
    raw draws, and the external [bedtools] commands by parameters.

    A function that prints returns what it printed; what was printed
    before an exception is dropped with it, except where the script runs
    the function as a process of a shell command and reads its output: the
    output is then what the process printed before it ended.  Integers are
    unbounded, as in Python; the quotients that the script computes in
    floating point are exact rationals here, and the formatting of the
    numbers printed ([%.1f], [%.3g]) is left out. *)

From Stdlib Require Import ZArith List String Ascii Bool Lia QArith.
From Stdlib Require Import DecimalString DecimalZ Permutation.
Import ListNotations.

Local Open Scope string_scope.
Local Open Scope Z_scope.

(* ===================================================================== *)
(** ** Python values, exceptions and builtins used by the script *)
(* ===================================================================== *)

Module Py.

(** The exceptions the modelled code can raise. *)
Inductive exn : Type :=
| IndexError
| ValueError
| ZeroDivisionError
| AssertionError (args : list string).

Inductive result (A : Type) : Type :=
| Ok (a : A)
| Raise (e : exn).

Arguments Ok {A} a.
Arguments Raise {A} e.

Definition bind {A B} (m : result A) (k : A -> result B) : result B :=
  match m with
  | Ok a => k a
  | Raise e => Raise e
  end.

(** A command-line argument reaches the script either as the integer
    default or as the text typed by the user. *)
Inductive value : Type :=
| PInt (z : Z)
| PStr (s : string).

Definition TAB : ascii := "009"%char.
Definition LF : ascii := "010"%char.
Definition VT : ascii := "011"%char.
Definition FF : ascii := "012"%char.
Definition CR : ascii := "013"%char.
Definition SP : ascii := " "%char.

Definition isspace (c : ascii) : bool :=
  (Ascii.eqb c SP || Ascii.eqb c TAB || Ascii.eqb c LF
   || Ascii.eqb c VT || Ascii.eqb c FF || Ascii.eqb c CR)%bool.

Definition is_crlf (c : ascii) : bool :=
  (Ascii.eqb c CR || Ascii.eqb c LF)%bool.

(** [s.lstrip(chars)] and [s.rstrip(chars)], the set of characters given
    as a predicate. *)
Fixpoint lstrip (p : ascii -> bool) (s : string) : string :=
  match s with
  | EmptyString => EmptyString
  | String c r => if p c then lstrip p r else s
  end.

Fixpoint rstrip (p : ascii -> bool) (s : string) : string :=
  match s with
  | EmptyString => EmptyString
  | String c r =>
      match rstrip p r with
      | EmptyString => if p c then EmptyString else String c EmptyString
      | r' => String c r'
      end
  end.

(** [s.split(sep)] for a one-character separator: never the empty list. *)
Fixpoint split (sep : ascii) (s : string) : list string :=
  match s with
  | EmptyString => [EmptyString]
  | String c r =>
      if Ascii.eqb c sep then EmptyString :: split sep r
      else match split sep r with
           | h :: t => String c h :: t
           | [] => [String c EmptyString]
           end
  end.

(** [sep.join(toks)]. *)
Definition join (sep : ascii) (toks : list string) : string :=
  String.concat (String sep EmptyString) toks.

(** [str(z)] of an integer. *)
Definition str (z : Z) : string := NilZero.string_of_int (Z.to_int z).

(** [int(s)] of a string, base 10: surrounding white space is skipped,
    one optional sign, then at least one digit and nothing else. *)
Definition digits (s : string) : result Z :=
  match NilZero.uint_of_string s with
  | Some d => Ok (Z.of_uint d)
  | None => Raise ValueError
  end.

Definition int_of_string (s : string) : result Z :=
  match rstrip isspace (lstrip isspace s) with
  | String "+" r => digits r
  | String "-" r => bind (digits r) (fun z => Ok (- z))
  | t => digits t
  end.

Definition int (v : value) : result Z :=
  match v with
  | PInt z => Ok z
  | PStr s => int_of_string s
  end.

(** Truth value of an argument, as [assert x] and [if x] take it. *)
Definition truthy (v : value) : bool :=
  match v with
  | PInt z => negb (z =? 0)
  | PStr s => negb (String.eqb s "")
  end.

(** [l[i]] with Python's negative indices. *)
Definition getitem {A} (l : list A) (i : Z) : result A :=
  let n := Z.of_nat (List.length l) in
  let j := if i <? 0 then i + n else i in
  if (0 <=? j) && (j <? n)
  then match nth_error l (Z.to_nat j) with
       | Some x => Ok x
       | None => Raise IndexError
       end
  else Raise IndexError.

(** [l[i] = x]. *)
Fixpoint replace_nth {A} (l : list A) (k : nat) (x : A) : list A :=
  match l, k with
  | [], _ => []
  | _ :: t, O => x :: t
  | h :: t, S k' => h :: replace_nth t k' x
  end.

Definition setitem {A} (l : list A) (i : Z) (x : A) : result (list A) :=
  let n := Z.of_nat (List.length l) in
  let j := if i <? 0 then i + n else i in
  if (0 <=? j) && (j <? n)
  then Ok (replace_nth l (Z.to_nat j) x)
  else Raise IndexError.

(** [assert c, args]: the exception carries [args], nothing for a bare
    [assert c]. *)
Definition assert (c : bool) (args : list string) : result unit :=
  if c then Ok tt else Raise (AssertionError args).

(** [a / float(b)]: the quotient as an exact rational (the rounding to a
    binary64 float is not modelled); dividing by zero raises. *)
Definition truediv (a b : Z) : result Q :=
  if b =? 0 then Raise ZeroDivisionError
  else Ok (inject_Z a / inject_Z b)%Q.

(** The random source: a tape of raw draws and the number already used. *)
Record rng : Type := mkRng { tape : nat -> Z; pos : nat }.

(** The value that a raw draw selects in [[a, b]]. *)
Definition randval (a b raw : Z) : Z := a + raw mod (b - a + 1).

(** [random.randint(a, b)], for [a <= b]: an integer in [[a, b]]. *)
Definition randint (a b : Z) (g : rng) : Z * rng :=
  (randval a b (tape g (pos g)), mkRng (tape g) (S (pos g))).

End Py.

Import Py.

Declare Scope py_scope.
Delimit Scope py_scope with py.
Notation "x <- c1 ;; c2" := (bind c1 (fun x => c2))
  (at level 100, c1 at next level, right associativity) : py_scope.
Notation "' p <- c1 ;; c2" := (bind c1 (fun p => c2))
  (at level 100, p pattern, c1 at next level, right associativity) : py_scope.
Local Open Scope py_scope.

(** A file is the list of its lines. *)
Definition file : Type := list string.

(** [l.rstrip("\r\n").split("\t")] *)
Definition tokens (l : string) : list string :=
  split TAB (rstrip is_crlf l).

(** [print "\t".join(toks)]: the line written, newline included. *)
Definition print_row (toks : list string) : string :=
  join TAB toks ++ String LF EmptyString.

(** The lines that iterating over a text yields: each ends after its
    newline, the last one where the text ends. *)
Fixpoint readlines (s : string) : file :=
  match s with
  | EmptyString => []
  | String c r =>
      if Ascii.eqb c LF then String LF EmptyString :: readlines r
      else match readlines r with
           | l :: t => String c l :: t
           | [] => [String c EmptyString]
           end
  end.

(** The start of a record, [int(toks[1])]. *)
Definition row_start (l : string) : result Z :=
  t <- getitem (tokens l) 1 ;; int_of_string t.

(** [int(toks[2])] *)
Definition row_end (l : string) : result Z :=
  t <- getitem (tokens l) 2 ;; int_of_string t.

(** A line with an integer start field and an integer end field. *)
Definition is_record (l : string) : bool :=
  match row_start l, row_end l with
  | Ok _, Ok _ => true
  | _, _ => false
  end.

(** [[f(x) for x in l]] for an [f] that may raise: stops at the first
    exception. *)
Fixpoint mapM {A B} (f : A -> result B) (l : list A) : result (list B) :=
  match l with
  | [] => Ok []
  | x :: t => y <- f x ;; ys <- mapM f t ;; Ok (y :: ys)
  end.

(* ===================================================================== *)
(** ** [extend_bed] *)
(* ===================================================================== *)

(** The body of the loop of [extend_bed] on one row; [bases] is already
    halved.  The integers stored into [toks[1]] and [toks[2]] are kept in
    [start] and [end_] and written back with [str], as [map(str, toks)]
    does at the [print]. *)
Definition extend_toks (bases : Z) (toks : list string) : result (list string) :=
  t1 <- getitem toks 1 ;;
  v1 <- int_of_string t1 ;;
  let start := Z.max 0 (v1 - bases) in
  t2 <- getitem toks 2 ;;
  v2 <- int_of_string t2 ;;
  let end_ := Z.max 0 (v2 + bases) in
  let mid := (start + end_) / 2 in
  let start' := if start >? end_ then mid else start in
  let end' := if start >? end_ then mid else end_ in
  _ <- assert (start' <=? end') [] ;;
  toks1 <- setitem toks 1 (str start') ;;
  toks2 <- setitem toks1 2 (str end') ;;
  Ok toks2.

(** One iteration of [extend_bed], from the line read to the line
    written. *)
Definition extend_line (bases : Z) (l : string) : result string :=
  toks <- extend_toks bases (tokens l) ;; Ok (print_row toks).

(** [extend_bed(fin, fout, bases)]: the lines written to [fout]. *)
Definition extend_bed (fin : file) (bases : Z) : result file :=
  let bases := bases / 2 in
  mapM (extend_line bases) fin.

(* ===================================================================== *)
(** ** [distance_shuffle] *)
(* ===================================================================== *)

(** [toks[1:3] = [str(max(0, int(loc) + d)) for loc in toks[1:3]]]: the
    slice holds the at most two tokens at positions 1 and 2, and is
    replaced by a list of the same length. *)
Definition shuffle_toks (d : Z) (toks : list string) : result (list string) :=
  locs <- mapM (fun loc => v <- int_of_string loc ;; Ok (str (Z.max 0 (v + d))))
               (firstn 2 (skipn 1 toks)) ;;
  Ok (firstn 1 toks ++ locs ++ skipn 3 toks)%list.

(** The loop of [distance_shuffle]: one [randint] per row, then the row
    is rewritten and printed. *)
Fixpoint distance_shuffle_rows (dist : Z) (bed : file) (g : rng)
  : result (file * rng) :=
  match bed with
  | [] => Ok ([], g)
  | l :: rest =>
      let toks := tokens l in
      let '(d, g1) := randint (- dist) dist g in
      toks' <- shuffle_toks d toks ;;
      '(out, g2) <- distance_shuffle_rows dist rest g1 ;;
      Ok (print_row toks' :: out, g2)
  end.

(** [distance_shuffle(bed, dist)]: the lines printed and the random
    source afterwards. *)
Definition distance_shuffle (bed : file) (dist : value) (g : rng)
  : result (file * rng) :=
  d <- int dist ;;
  let dist := Z.abs d in
  distance_shuffle_rows dist bed g.

(** What the loop of [distance_shuffle] has printed when it ends, at the
    end of the file or on an exception: every row is printed as soon as
    it is rewritten, so the rows before the first one that raises are
    there. *)
Fixpoint distance_shuffle_printed (dist : Z) (bed : file) (g : rng) : file :=
  match bed with
  | [] => []
  | l :: rest =>
      let toks := tokens l in
      let '(d, g1) := randint (- dist) dist g in
      match shuffle_toks d toks with
      | Ok toks' => print_row toks' :: distance_shuffle_printed dist rest g1
      | Raise _ => []
      end
  end.

(** The standard output of a [distance-shuffle] process: nothing when
    [int(dist)] raises, and what the loop has printed otherwise. *)
Definition distance_shuffle_stdout (bed : file) (dist : value) (g : rng)
  : file :=
  match int dist with
  | Ok d => distance_shuffle_printed (Z.abs d) bed g
  | Raise _ => []
  end.

(** The offset that the row of index [i] receives. *)
Definition offset (dist : Z) (g : rng) (i : nat) : Z :=
  randval (- dist) dist (tape g (pos g + i)).

(** Two files hold the same records, index for index, up to the start
    and end fields (the tokens of index 1 and 2). *)
Definition frame_preserved (bed out : file) : Prop :=
  List.length out = List.length bed /\
  forall i l l', nth_error bed i = Some l -> nth_error out i = Some l' ->
    List.length (tokens l') = List.length (tokens l) /\
    forall j, j <> 1%nat -> j <> 2%nat ->
              nth_error (tokens l') j = nth_error (tokens l) j.

(* ===================================================================== *)
(** ** [bed_sample] *)
(* ===================================================================== *)

(** One iteration of the loop of [bed_sample] at index [i]. *)
Definition sample_step {A} (n : Z) (i : Z) (line : A) (lines : list A) (g : rng)
  : result (list A * rng) :=
  if i <? n then Ok ((lines ++ [line])%list, g)
  else
    let '(replace_idx, g') := randint 0 i g in
    if replace_idx <? n
    then lines' <- setitem lines replace_idx line ;; Ok (lines', g')
    else Ok (lines, g').

(** [for i, line in enumerate(bed)] from index [i] on. *)
Fixpoint sample_loop {A} (n : Z) (bed : list A) (i : Z) (lines : list A) (g : rng)
  : result (list A * rng) :=
  match bed with
  | [] => Ok (lines, g)
  | line :: rest =>
      '(lines', g') <- sample_step n i line lines g ;;
      sample_loop n rest (i + 1) lines' g'
  end.

(** [bed_sample] up to its last line: [n = int(n)], then the reservoir
    [lines] when the file has been read, and the random source. *)
Definition bed_sample_lines (bed : file) (n : value) (g : rng)
  : result (file * rng) :=
  n <- int n ;;
  sample_loop n bed 0 [] g.

(** [bed_sample(bed, n)]: the text that [print "".join(lines),] writes,
    the lines of the reservoir one after the other with nothing between
    them and nothing after them, and the random source afterwards. *)
Definition bed_sample (bed : file) (n : value) (g : rng)
  : result (string * rng) :=
  '(lines, g') <- bed_sample_lines bed n g ;;
  Ok (String.concat "" lines, g').

(** [print x,] leaves the soft space of the standard output set, unless
    [x] ends with a white-space character that is not a blank. *)
Fixpoint softspace (x : string) : bool :=
  match x with
  | EmptyString => true
  | String c r =>
      match r with
      | EmptyString => negb (isspace c) || Ascii.eqb c SP
      | String _ _ => softspace r
      end
  end.

(** The standard output of a [bed-sample] process.  The text is printed
    in one piece at the end, so nothing is there when an exception came
    before; and when the soft space is still set as the process exits,
    Python 2 ends the output with a newline. *)
Definition bed_sample_stdout (bed : file) (n : value) (g : rng) : string :=
  match bed_sample bed n g with
  | Ok (text, _) =>
      if softspace text then text ++ String LF EmptyString else text
  | Raise _ => ""
  end.

(* ===================================================================== *)
(** ** The functions that call [bedtools] *)
(* ===================================================================== *)

(** The summary that [zclude] writes to the standard error. *)
Record diagnostic : Type := mkDiag {
  diag_orig : Z;
  diag_after : Z;
  diag_pct : Q;
  diag_clude : string
}.

(** What [fixle] and [poverlap] print. *)
Record report : Type := mkReport {
  observed : Z;
  sims : list Z;
  mean : Q;
  pvalue : Q
}.

(** [len(l)] *)
Definition len {A} (l : list A) : Z := Z.of_nat (List.length l).

(** [sum(sims)] *)
Definition sum (l : list Z) : Z := fold_left Z.add l 0.

(** [sum((s >= observed) for s in sims)]: each [True] counts for one. *)
Definition count_ge (observed : Z) (l : list Z) : Z :=
  sum (map (fun s => if s >=? observed then 1 else 0) l).

(** The last three [print]s of [fixle] and of [poverlap]. *)
Definition summarize (observed : Z) (sims : list Z) : result report :=
  mean <- truediv (sum sims) (len sims) ;;
  pvalue <- truediv (count_ge observed sims) (len sims) ;;
  Ok (mkReport observed sims mean pvalue).

Section Bedtools.

(** [bedtools intersect -v -a A -b B] and [bedtools intersect -u -a A -b B]:
    the records of [A] that overlap no, respectively some, record of [B]. *)
Variable intersect_v : file -> file -> file.
Variable intersect_u : file -> file -> file.

(** [bedtools shuffle -excl E -incl I -i B -g G -chrom], with the random
    source of that process. *)
Variable bedtools_shuffle :
  option file -> option file -> file -> option file -> bool -> rng -> file.

(** [int(run("bedtools intersect -u -a {a} -b {b} | wc -l"))] *)
Definition overlaps (a b : file) : Z := len (intersect_u a b).

(** [zclude(bed, other, exclude)]: the file returned and what was written
    to the standard error. *)
Definition zclude (bed : file) (other : option file) (exclude : bool)
  : result (file * list diagnostic) :=
  match other with
  | None => Ok (bed, [])
  | Some other =>
      let n_orig := len bed in
      let tmp := if exclude then intersect_v bed other
                 else intersect_u bed other in
      let n_after := len tmp in
      let clude := if exclude then "exclud" else "includ" in
      pct <- truediv (100 * (n_orig - n_after)) n_orig ;;
      Ok (tmp, [mkDiag n_orig n_after pct clude])
  end.

(** The first loop of [fixle]: the rows go to [afh], or to [ofh] and,
    when labelled [btype], to [bfh] as well. *)
Fixpoint fixle_rows (atype btype : string) (type_col : Z) (bed : file)
  (afh ofh bfh : file) (n_btypes : Z) : result (file * file * file * Z) :=
  match bed with
  | [] => Ok (afh, ofh, bfh, n_btypes)
  | l :: rest =>
      let toks := tokens l in
      lab <- getitem toks type_col ;;
      if String.eqb lab atype
      then fixle_rows atype btype type_col rest
             (afh ++ [print_row toks])%list ofh bfh n_btypes
      else
        let ofh' := (ofh ++ [print_row toks])%list in
        if String.eqb lab btype
        then fixle_rows atype btype type_col rest
               afh ofh' (bfh ++ [print_row toks])%list (n_btypes + 1)
        else fixle_rows atype btype type_col rest afh ofh' bfh n_btypes
  end.

(** One run of [shuf_cmd] in [fixle]: [bed-sample] is a process of its
    own, with its own random source, whose output [bedtools] reads line
    by line; the count that [wc -l] prints is what [run] returns. *)
Definition fixle_round (a other : file) (n_btypes : Z) (g : rng) : Z :=
  let bsample := readlines (bed_sample_stdout other (PStr (str n_btypes)) g) in
  overlaps a bsample.

(** [fixle(bed, atype, btype, type_col, n)]; [seeds i] is the random
    source of the [i]-th run of the shuffle command. *)
Definition fixle (bed : file) (atype btype : string) (type_col : Z) (n : Z)
  (seeds : nat -> rng) : result report :=
  let type_col := type_col - 1 in
  '(a, other, b, n_btypes) <- fixle_rows atype btype type_col bed [] [] [] 0 ;;
  _ <- assert (n_btypes >? 0) ["no intervals found for"; btype] ;;
  let observed := overlaps a b in
  let sims := map (fun i => fixle_round a other n_btypes (seeds i))
                  (seq 0 (Z.to_nat n)) in
  summarize observed sims.

(** One run of [shuf_cmd] in [poverlap]; [ga] and [gb] are the random
    sources of the processes that shuffle [a] and [b].  [bedtools] reads
    what a shuffling process has printed, also when that process ended on
    an exception, and the count that [wc -l] prints is what [run]
    returns. *)
Definition poverlap_round (a b : file) (genome exclude include : option file)
  (chrom shuffle_both : bool) (shuffle_distance : option Z) (ga gb : rng)
  : Z :=
  match shuffle_distance with
  | None =>
      let a' := if shuffle_both
                then bedtools_shuffle exclude include a genome chrom ga
                else a in
      overlaps a' (bedtools_shuffle exclude include b genome chrom gb)
  | Some dist =>
      let a' := if shuffle_both
                then distance_shuffle_stdout a (PStr (str dist)) ga
                else a in
      overlaps a' (distance_shuffle_stdout b (PStr (str dist)) gb)
  end.

(** [poverlap] up to the shuffle command: the number of trials, the two
    files once filtered and extended, the shuffle distance read, and what
    [zclude] wrote to the standard error. *)
Definition poverlap_setup (a b : file) (genome : option file) (n : value)
  (exclude include : option file) (overlap_distance : Z)
  (shuffle_distance : option value)
  : result (Z * file * file * option Z * list diagnostic) :=
  n <- int n ;;
  _ <- match genome with
       | None =>
           assert (match shuffle_distance with
                   | Some v => truthy v
                   | None => false
                   end) []
       | Some _ => Ok tt
       end ;;
  '(a1, e1) <- zclude a exclude true ;;
  '(a2, e2) <- zclude a1 include false ;;
  '(b1, e3) <- zclude b exclude true ;;
  '(b2, e4) <- zclude b1 include false ;;
  '(a3, b3) <- (if negb (overlap_distance =? 0)
                then a' <- extend_bed a2 overlap_distance ;;
                     b' <- extend_bed b2 overlap_distance ;;
                     Ok (a', b')
                else Ok (a2, b2)) ;;
  shuffle_distance <- match shuffle_distance with
                      | None => Ok None
                      | Some v => d <- int v ;; Ok (Some d)
                      end ;;
  Ok (n, a3, b3, shuffle_distance, e1 ++ e2 ++ e3 ++ e4)%list.

(** [poverlap(a, b, genome, n, chrom, exclude, include, shuffle_both,
    overlap_distance, shuffle_distance)]; the report and what [zclude]
    wrote to the standard error.  [seeds i] holds the random sources of
    the [i]-th run of the shuffle command. *)
Definition poverlap (a b : file) (genome : option file) (n : value)
  (chrom : bool) (exclude include : option file) (shuffle_both : bool)
  (overlap_distance : Z) (shuffle_distance : option value)
  (seeds : nat -> rng * rng) : result (report * list diagnostic) :=
  '(n, a, b, shuffle_distance, stderr) <-
    poverlap_setup a b genome n exclude include overlap_distance
                   shuffle_distance ;;
  let observed := overlaps a b in
  let sims := map (fun i => poverlap_round a b genome exclude include chrom
                              shuffle_both shuffle_distance
                              (fst (seeds i)) (snd (seeds i)))
                  (seq 0 (Z.to_nat n)) in
  r <- summarize observed sims ;;
  Ok (r, stderr).

End Bedtools.

(** The label of a line, [toks[type_col]], and the tests on it. *)
Definition label (type_col : Z) (l : string) : result string :=
  getitem (tokens l) type_col.

Definition labelled (type_col : Z) (l : string) : bool :=
  match label type_col l with
  | Ok _ => true
  | Raise _ => false
  end.

Definition has_label (type_col : Z) (lab : string) (l : string) : bool :=
  match label type_col l with
  | Ok x => String.eqb x lab
  | Raise _ => false
  end.

(** A line as [fixle] copies it: ["\t".join(toks)] and a newline. *)
Definition reprint (l : string) : string := print_row (tokens l).

(* ===================================================================== *)
(** ** [run] and the start of the script *)
(* ===================================================================== *)

Section Shell.

(** [nopen("|cmd")]: the lines that the shell command prints. *)
Variable nopen : string -> list string.

Definition is_pipe (c : ascii) : bool := Ascii.eqb c "|"%char.

(** ["|%s" % cmd.lstrip("|")] *)
Definition run_command (cmd : string) : string :=
  String "|"%char (lstrip is_pipe cmd).

(** [run(cmd)]: the first line printed. *)
Definition run (cmd : string) : result string :=
  getitem (nopen (run_command cmd)) 0.

End Shell.

(** [x in l] *)
Definition contains (x : string) (l : list string) : bool :=
  existsb (String.eqb x) l.

(** [l.index(x)]: the first position of [x]. *)
Fixpoint index (x : string) (l : list string) : result Z :=
  match l with
  | [] => Raise ValueError
  | y :: t => if String.eqb y x then Ok 0
              else i <- index x t ;; Ok (i + 1)
  end.

(** [l.pop(i)]: the element removed and the list left. *)
Fixpoint remove_nth {A} (l : list A) (k : nat) : list A :=
  match l, k with
  | [], _ => []
  | _ :: t, O => t
  | h :: t, S k' => h :: remove_nth t k'
  end.

Definition pop {A} (l : list A) (i : Z) : result (A * list A) :=
  let n := Z.of_nat (List.length l) in
  let j := if i <? 0 then i + n else i in
  if (0 <=? j) && (j <? n)
  then match nth_error l (Z.to_nat j) with
       | Some x => Ok (x, remove_nth l (Z.to_nat j))
       | None => Raise IndexError
       end
  else Raise IndexError.

(** The first lines of the main block: [--ncpus N] is taken out of
    [sys.argv] and sets [NCPUS]; what is returned is [sys.argv] and
    [NCPUS] as [Run()] finds them. *)
Definition main_ncpus (argv : list string) (NCPUS : Z)
  : result (list string * Z) :=
  if contains "--ncpus" argv
  then
    i <- index "--ncpus" argv ;;
    '(_, argv1) <- pop argv i ;;
    '(v, argv2) <- pop argv1 i ;;
    n <- int_of_string v ;;
    Ok (argv2, n)
  else Ok (argv, NCPUS).

(* ===================================================================== *)
(** ** A reference [bedtools], to run the script on concrete files *)
(* ===================================================================== *)

Module Reference.

(** Modelled from the spec: [bedtools] is an external program, and the
    specification gives its contract only.  Intervals are half-open and
    two of them overlap when they share a position on the same
    chromosome; [intersect -u] keeps the records of the first file that
    overlap some record of the second, [intersect -v] the others. *)
Definition overlap (la lb : string) : bool :=
  match tokens la, tokens lb with
  | ca :: _, cb :: _ =>
      match row_start la, row_end la, row_start lb, row_end lb with
      | Ok sa, Ok ea, Ok sb, Ok eb =>
          String.eqb ca cb && (sa <? eb) && (sb <? ea)
      | _, _, _, _ => false
      end
  | _, _ => false
  end.

Definition intersect_u (a b : file) : file :=
  filter (fun la => existsb (overlap la) b) a.

Definition intersect_v (a b : file) : file :=
  filter (fun la => negb (existsb (overlap la) b)) a.

(** The genome-wide [bedtools shuffle] is opaque to the script; the
    concrete runs below take the distance shuffle and never call it. *)
Definition unused_shuffle (exclude include : option file) (i : file)
  (genome : option file) (chrom : bool) (g : rng) : file := i.

(** A random source whose raw draws are all [raw]. *)
Definition constant (raw : Z) : rng := mkRng (fun _ => raw) 0.

End Reference.

(* ===================================================================== *)
(** ** Auxiliary definitions for the statements *)
(* ===================================================================== *)

(** Every character of [s] satisfies [p]. *)
Fixpoint string_forall (p : ascii -> bool) (s : string) : bool :=
  match s with
  | EmptyString => true
  | String c r => p c && string_forall p r
  end.

(** The decimal digits. *)
Definition is_digit (c : ascii) : bool :=
  match c with
  | "0" | "1" | "2" | "3" | "4" | "5" | "6" | "7" | "8" | "9" => true
  | _ => false
  end%char.

(** A token: a string without the separator. *)
Definition no_sep (sep : ascii) (t : string) : bool :=
  string_forall (fun c => negb (Ascii.eqb c sep)) t.

(** A string that [rstrip("\r\n")] leaves as it is. *)
Definition clean (s : string) : Prop := rstrip is_crlf s = s.

(** A row as the script handles it, the tokens of some line: printing
    it and reading it back gives the same tokens. *)
Definition row_ok (toks : list string) : Prop :=
  toks <> [] /\ Forall (fun t => no_sep TAB t = true) toks
  /\ clean (last toks "").

(** The first component of a returned pair through [f]. *)
Definition map_fst {A B C} (f : A -> B) (r : result (A * C)) : result (B * C) :=
  match r with
  | Ok (a, c) => Ok (f a, c)
  | Raise e => Raise e
  end.

(** The number of [randint] calls while the records of index [a] to
    [a + m - 1] go by. *)
Definition draws (n : Z) (a m : nat) : nat :=
  Z.to_nat (Z.of_nat (a + m) - Z.max n (Z.of_nat a)).

(** A line that ends with its newline and has no other. *)
Fixpoint terminated (l : string) : bool :=
  match l with
  | EmptyString => false
  | String c r => if Ascii.eqb c LF then String.eqb r "" else terminated r
  end.

(** A line as iterating over a file yields it: no newline before its
    terminator. *)
Definition is_line (l : string) : bool := no_sep LF (rstrip is_crlf l).

(** The draw that [bed_sample] makes for the record of index [i], one of
    those read once the reservoir of [n] lines is full. *)
Definition draw_for (n : Z) (g : rng) (i : nat) : Z :=
  randval 0 (Z.of_nat i) (tape g (pos g + (i - Z.to_nat n))).

(** After [m] records, slot [j] of the reservoir holds the record of
    index [i]: the last one whose draw was [j], or the record [j] that
    filled the slot when no draw was [j]. *)
Definition slot_holds (n : Z) (g : rng) (m j i : nat) : Prop :=
  (i = j \/ (n <= Z.of_nat i /\ draw_for n g i = Z.of_nat j)) /\
  forall i', (i < i' < m)%nat -> n <= Z.of_nat i' ->
             draw_for n g i' <> Z.of_nat j.

(** A record with [start <= end] and a non-negative end. *)
Definition is_interval (l : string) : bool :=
  match row_start l, row_end l with
  | Ok s, Ok e => (s <=? e) && (0 <=? e)
  | _, _ => false
  end.

(** A line that [distance_shuffle] can rewrite: the tokens of index 1 and
    2, where the line has them, are integers. *)
Definition is_int (t : string) : bool :=
  match int_of_string t with
  | Ok _ => true
  | Raise _ => false
  end.

Definition shufflable (l : string) : bool :=
  forallb is_int (firstn 2 (skipn 1 (tokens l))).

(** A record whose start and end are written as [str] writes them, and
    are not negative. *)
Definition canonical (l : string) : bool :=
  match tokens l, row_start l, row_end l with
  | _ :: s :: e :: _, Ok v1, Ok v2 =>
      String.eqb (str v1) s && String.eqb (str v2) e
      && (0 <=? v1) && (0 <=? v2)
  | _, _, _ => false
  end.

(** The number of masks given to [poverlap]. *)
Definition masks (exclude include : option file) : nat :=
  (match exclude with Some _ => 1 | None => 0 end
   + match include with Some _ => 1 | None => 0 end)%nat.

(** A file after one mask of [poverlap], as [bedtools] filters it. *)
Definition masked (iv iu : file -> file -> file) (other : option file)
  (exclude : bool) (bed : file) : file :=
  match other with
  | None => bed
  | Some o => if exclude then iv bed o else iu bed o
  end.

(* ===================================================================== *)
(** ** Concrete inputs *)
(* ===================================================================== *)

(** A record at the edge of its chromosome, and a random source whose
    raw draws are all 3: with the distance 10 every offset is [-7]. *)
Definition edge_bed : file := [print_row ["chr1"; "5"; "10"; "CTCF"]].

Definition edge_source : rng := Reference.constant 3.

Definition edge_shuffled : file := [print_row ["chr1"; "0"; "3"; "CTCF"]].

Definition edge_extended : file := [print_row ["chr1"; "0"; "20"; "CTCF"]].

(** Five records to sample from, and a random source whose first raw
    draws are 0, 5 and 1. *)
Definition sample_bed : file :=
  [print_row ["chr1"; "1"; "2"]; print_row ["chr1"; "3"; "4"];
   print_row ["chr1"; "5"; "6"]; print_row ["chr1"; "7"; "8"];
   print_row ["chr1"; "9"; "10"]].

Definition sample_source : rng := mkRng (fun i => nth i [0; 5; 1] 0) 0.

(** A file of three records whose last line has no newline. *)
Definition unterminated_bed : file :=
  [print_row ["chr1"; "1"; "2"]; print_row ["chr1"; "3"; "4"];
   join TAB ["chr1"; "5"; "6"]].

(** The scenario of the specification: [A] is [chr1 100 200], [B] is
    [chr1 150 250] and [chr1 10 20]; the rounds shuffle [B] within a
    distance, and every raw draw is [raw]. *)
Definition scenario_a : file := [print_row ["chr1"; "100"; "200"]].

Definition scenario_b : file :=
  [print_row ["chr1"; "150"; "250"]; print_row ["chr1"; "10"; "20"]].

(** [B] with a header line before its records. *)
Definition header_b : file :=
  print_row ["chrom"; "start"; "end"] :: scenario_b.

Definition scenario_run (n : Z) (dist : value) (raw : Z)
  : result (report * list diagnostic) :=
  poverlap Reference.intersect_v Reference.intersect_u
    Reference.unused_shuffle scenario_a scenario_b None (PInt n) false
    None None false 0 (Some dist)
    (fun _ => (Reference.constant raw, Reference.constant raw)).

(** The scenario of the specification for [fixle]: 3 rows labelled
    [Pol2], 5 labelled [CTCF] and 2 others, in column 4. *)
Definition fixle_bed : file :=
  [print_row ["chr1"; "10"; "20"; "Pol2"];
   print_row ["chr1"; "30"; "40"; "CTCF"];
   print_row ["chr1"; "50"; "60"; "CTCF"];
   print_row ["chr1"; "70"; "80"; "H3K4"];
   print_row ["chr2"; "10"; "20"; "Pol2"];
   print_row ["chr2"; "15"; "40"; "CTCF"];
   print_row ["chr2"; "50"; "60"; "CTCF"];
   print_row ["chr2"; "70"; "80"; "p300"];
   print_row ["chr3"; "10"; "20"; "Pol2"];
   print_row ["chr3"; "15"; "40"; "CTCF"]].

Definition fixle_pool : file :=
  [print_row ["chr1"; "30"; "40"; "CTCF"];
   print_row ["chr1"; "50"; "60"; "CTCF"];
   print_row ["chr1"; "70"; "80"; "H3K4"];
   print_row ["chr2"; "15"; "40"; "CTCF"];
   print_row ["chr2"; "50"; "60"; "CTCF"];
   print_row ["chr2"; "70"; "80"; "p300"];
   print_row ["chr3"; "15"; "40"; "CTCF"]].

Definition fixle_kept : file :=
  [print_row ["chr1"; "10"; "20"; "Pol2"];
   print_row ["chr2"; "10"; "20"; "Pol2"];
   print_row ["chr3"; "10"; "20"; "Pol2"]].

(** The rows of [fixle_bed] labelled [CTCF], and a mask that overlaps
    none of the records of the scenario. *)
Definition fixle_swapped : file :=
  [print_row ["chr1"; "30"; "40"; "CTCF"];
   print_row ["chr1"; "50"; "60"; "CTCF"];
   print_row ["chr2"; "15"; "40"; "CTCF"];
   print_row ["chr2"; "50"; "60"; "CTCF"];
   print_row ["chr3"; "15"; "40"; "CTCF"]].

Definition far_mask : file := [print_row ["chr9"; "1"; "2"]].

(** The random sources of the rounds of the [fixle] scenario: the first
    round draws 0 and 5, the others 1 and 1. *)
Definition fixle_seeds (i : nat) : rng :=
  match i with
  | O => sample_source
  | S _ => Reference.constant 1
  end.

(** A shell that prints the command it is given. *)
Definition echo_shell (cmd : string) : list string := [cmd].

(* ===================================================================== *)
(** ** Facts on the builtins *)
(* ===================================================================== *)

(** *** [int] and [str] *)

Lemma is_digit_not_space c : is_digit c = true -> isspace c = false.
Proof.
  destruct c as [[|] [|] [|] [|] [|] [|] [|] [|]]; simpl; intros H;
    (discriminate H || reflexivity).
Qed.

Lemma rstrip_none p s :
  string_forall (fun c => negb (p c)) s = true -> rstrip p s = s.
Proof.
  induction s as [|c r IH]; simpl; [reflexivity|].
  intros H. apply andb_prop in H. destruct H as [Hc Hr].
  rewrite (IH Hr). destruct r; [|reflexivity].
  apply negb_true_iff in Hc. now rewrite Hc.
Qed.

Lemma string_of_uint_digits d :
  string_forall is_digit (NilEmpty.string_of_uint d) = true.
Proof. induction d; simpl; auto. Qed.

Lemma string_forall_impl (p q : ascii -> bool) s :
  (forall c, p c = true -> q c = true) ->
  string_forall p s = true -> string_forall q s = true.
Proof.
  intros Hpq. induction s as [|c r IH]; simpl; [reflexivity|].
  intros H. apply andb_prop in H. destruct H as [Hc Hr].
  now rewrite (Hpq _ Hc), (IH Hr).
Qed.

Lemma nospace_string_of_uint d :
  string_forall (fun c => negb (isspace c)) (NilEmpty.string_of_uint d) = true.
Proof.
  apply string_forall_impl with (p := is_digit);
    [ intros c Hc; now rewrite is_digit_not_space
    | apply string_of_uint_digits ].
Qed.

Lemma digits_string_of_uint d :
  d <> Decimal.Nil ->
  digits (NilEmpty.string_of_uint d) = Ok (Z.of_uint d).
Proof.
  intros Hd. unfold digits.
  replace (NilEmpty.string_of_uint d) with (NilZero.string_of_uint d)
    by (destruct d; try reflexivity; contradiction).
  now rewrite NilZero.usu.
Qed.

Lemma to_uint_not_nil p : Pos.to_uint p <> Decimal.Nil.
Proof.
  intros E. pose proof (DecimalPos.Unsigned.of_to p) as H.
  rewrite E in H. discriminate H.
Qed.

Lemma of_uint_to_uint p : Z.of_uint (Pos.to_uint p) = Z.pos p.
Proof. exact (DecimalZ.of_to (Z.pos p)). Qed.

(** [int(str(z))] is [z]. *)
Lemma int_of_string_str z : int_of_string (str z) = Ok z.
Proof.
  unfold str. destruct z as [|p|p]; [reflexivity| |];
    simpl Z.to_int; simpl NilZero.string_of_int;
    pose proof (to_uint_not_nil p) as Hp;
    pose proof (digits_string_of_uint _ Hp) as Hd;
    pose proof (nospace_string_of_uint (Pos.to_uint p)) as Hs;
    rewrite of_uint_to_uint in Hd;
    replace (NilZero.string_of_uint (Pos.to_uint p))
      with (NilEmpty.string_of_uint (Pos.to_uint p))
      by (destruct (Pos.to_uint p); try reflexivity; contradiction);
    unfold int_of_string.
  - assert (Hl : lstrip isspace (NilEmpty.string_of_uint (Pos.to_uint p))
                 = NilEmpty.string_of_uint (Pos.to_uint p))
      by (destruct (Pos.to_uint p); reflexivity).
    rewrite Hl, (rstrip_none _ _ Hs).
    destruct (Pos.to_uint p); try contradiction; exact Hd.
  - change (lstrip isspace (String "-" (NilEmpty.string_of_uint (Pos.to_uint p))))
      with (String "-" (NilEmpty.string_of_uint (Pos.to_uint p))).
    rewrite rstrip_none by (simpl; exact Hs).
    now rewrite Hd.
Qed.

(** *** [split] and [join] *)

Lemma split_not_nil sep s : split sep s <> [].
Proof.
  destruct s as [|c r]; simpl; [discriminate|].
  destruct (Ascii.eqb c sep); [discriminate|].
  destruct (split sep r); discriminate.
Qed.

Lemma join_cons sep t ts :
  ts <> [] -> join sep (t :: ts) = t ++ String sep (join sep ts).
Proof. destruct ts; [congruence|reflexivity]. Qed.

Lemma join_split sep s : join sep (split sep s) = s.
Proof.
  induction s as [|c r IH]; [reflexivity|]. simpl.
  destruct (Ascii.eqb_spec c sep) as [->|Hc].
  - rewrite join_cons by apply split_not_nil. simpl. now rewrite IH.
  - pose proof (split_not_nil sep r) as Hn.
    destruct (split sep r) as [|h t]; [congruence|].
    destruct t as [|t1 t2].
    + change (h = r) in IH. now subst h.
    + rewrite join_cons in IH by discriminate.
      rewrite join_cons by discriminate. simpl. now rewrite IH.
Qed.

Lemma split_no_sep sep s : Forall (fun t => no_sep sep t = true) (split sep s).
Proof.
  induction s as [|c r IH]; simpl.
  - constructor; [reflexivity|constructor].
  - destruct (Ascii.eqb c sep) eqn:Hc.
    + constructor; [reflexivity|exact IH].
    + assert (Hn : forall h, no_sep sep h = true -> no_sep sep (String c h) = true)
        by (intros h Hh; unfold no_sep in *; simpl; now rewrite Hc).
      destruct (split sep r) as [|h t].
      * constructor; [now apply Hn|constructor].
      * inversion IH; subst. constructor; [now apply Hn|assumption].
Qed.

Lemma split_app_sep sep t r :
  no_sep sep t = true -> split sep (t ++ String sep r) = t :: split sep r.
Proof.
  induction t as [|c t IH]; simpl; intros H.
  - now rewrite Ascii.eqb_refl.
  - unfold no_sep in H. simpl in H. apply andb_prop in H. destruct H as [Hc Ht].
    apply negb_true_iff in Hc. rewrite Hc. now rewrite (IH Ht).
Qed.

Lemma split_one sep t : no_sep sep t = true -> split sep t = [t].
Proof.
  induction t as [|c t IH]; simpl; intros H; [reflexivity|].
  unfold no_sep in H. simpl in H. apply andb_prop in H. destruct H as [Hc Ht].
  apply negb_true_iff in Hc. rewrite Hc. now rewrite (IH Ht).
Qed.

Lemma split_join sep toks :
  toks <> [] -> Forall (fun t => no_sep sep t = true) toks ->
  split sep (join sep toks) = toks.
Proof.
  induction toks as [|t ts IH]; [congruence|]. intros _ H.
  inversion H as [|? ? Ht Hts]; subst.
  destruct ts as [|t1 t2].
  - simpl. now apply split_one.
  - rewrite join_cons by discriminate.
    rewrite split_app_sep by assumption.
    f_equal. apply IH; [discriminate|assumption].
Qed.

(** *** [rstrip] *)

Lemma rstrip_app_all p s t :
  string_forall p t = true -> rstrip p (s ++ t) = rstrip p s.
Proof.
  intros Ht. induction s as [|c r IH]; simpl.
  - induction t as [|c t IHt]; [reflexivity|]. simpl in *.
    apply andb_prop in Ht. destruct Ht as [Hc Ht].
    now rewrite (IHt Ht), Hc.
  - now rewrite IH.
Qed.

Lemma rstrip_idem p s : rstrip p (rstrip p s) = rstrip p s.
Proof.
  induction s as [|c r IH]; [reflexivity|]. simpl.
  destruct (rstrip p r) as [|c' r'] eqn:E.
  - destruct (p c) eqn:Hc; [reflexivity|]. simpl. now rewrite Hc.
  - change (rstrip p (String c (String c' r'))) with
      (match rstrip p (String c' r') with
       | EmptyString => if p c then EmptyString else String c EmptyString
       | r'' => String c r''
       end).
    now rewrite IH.
Qed.

Lemma clean_tail c r : clean (String c r) -> clean r.
Proof.
  unfold clean. simpl. destruct (rstrip is_crlf r) as [|c' r'] eqn:E.
  - destruct (is_crlf c); [discriminate|]. intros [= <-]. reflexivity.
  - intros [= <-]. reflexivity.
Qed.

Lemma clean_cons c r : clean r -> r <> "" -> clean (String c r).
Proof.
  unfold clean. intros H Hr. simpl. rewrite H.
  destruct r; [congruence|reflexivity].
Qed.

Lemma clean_sep_cons c r : is_crlf c = false -> clean r -> clean (String c r).
Proof.
  unfold clean. intros Hc H. simpl. rewrite H, Hc.
  destruct r; reflexivity.
Qed.

Lemma clean_app a b : clean b -> b <> "" -> clean (a ++ b).
Proof.
  intros Hb Hn. induction a as [|c a IH]; [exact Hb|].
  simpl. apply clean_cons; [exact IH|].
  destruct a; [exact Hn|discriminate].
Qed.

Lemma clean_join toks : clean (last toks "") -> clean (join TAB toks).
Proof.
  induction toks as [|t ts IH]; [intros _; reflexivity|].
  destruct ts as [|t1 t2]; [simpl; auto|].
  intros H. rewrite join_cons by discriminate.
  apply clean_app; [|discriminate].
  apply clean_sep_cons; [reflexivity|].
  apply IH. exact H.
Qed.

Lemma clean_last_split s : clean s -> clean (last (split TAB s) "").
Proof.
  induction s as [|c r IH]; [intros _; reflexivity|].
  intros H. pose proof (clean_tail _ _ H) as Hr. specialize (IH Hr).
  simpl split. destruct (Ascii.eqb c TAB) eqn:Hc.
  - pose proof (split_not_nil TAB r) as Hn.
    destruct (split TAB r); [congruence|exact IH].
  - pose proof (join_split TAB r) as Hj.
    pose proof (split_not_nil TAB r) as Hn.
    destruct (split TAB r) as [|h t]; [congruence|].
    destruct t as [|t1 t2]; [|exact IH].
    change (h = r) in Hj. subst h. exact H.
Qed.

Lemma clean_str z : clean (str z).
Proof.
  unfold clean. apply rstrip_none.
  assert (Hd : forall d, string_forall (fun c => negb (is_crlf c))
                           (NilEmpty.string_of_uint d) = true).
  { intros d. apply string_forall_impl with (p := is_digit);
      [|apply string_of_uint_digits].
    intros c; destruct c as [[|] [|] [|] [|] [|] [|] [|] [|]]; simpl;
      intros Hc; (discriminate Hc || reflexivity). }
  unfold str. destruct z as [|p|p]; [reflexivity| |]; simpl;
    pose proof (Hd (Pos.to_uint p)) as H;
    destruct (Pos.to_uint p); simpl in *; auto.
Qed.

Lemma no_sep_str z : no_sep TAB (str z) = true.
Proof.
  assert (Hd : forall d, no_sep TAB (NilEmpty.string_of_uint d) = true).
  { intros d. apply string_forall_impl with (p := is_digit);
      [|apply string_of_uint_digits].
    intros c; destruct c as [[|] [|] [|] [|] [|] [|] [|] [|]]; simpl;
      intros Hc; (discriminate Hc || reflexivity). }
  unfold str. destruct z as [|p|p]; [reflexivity| |]; simpl;
    pose proof (Hd (Pos.to_uint p)) as H;
    destruct (Pos.to_uint p); simpl in *; auto.
Qed.

Lemma tokens_row_ok l : row_ok (tokens l).
Proof.
  unfold tokens. repeat split.
  - apply split_not_nil.
  - apply split_no_sep.
  - apply clean_last_split. apply rstrip_idem.
Qed.

(** Reading back a printed row gives its tokens. *)
Lemma tokens_print_row toks : row_ok toks -> tokens (print_row toks) = toks.
Proof.
  intros (Hn & Hs & Hc). unfold tokens, print_row.
  rewrite rstrip_app_all by reflexivity.
  rewrite (clean_join _ Hc). now apply split_join.
Qed.

(** *** The error monad, indexing *)

Lemma bind_Ok {A B} (m : result A) (k : A -> result B) b :
  bind m k = Ok b -> exists a, m = Ok a /\ k a = Ok b.
Proof. destruct m as [a|e]; simpl; [eauto|discriminate]. Qed.

Lemma bind_Raise {A B} (m : result A) (k : A -> result B) e :
  bind m k = Raise e -> m = Raise e \/ exists a, m = Ok a /\ k a = Raise e.
Proof. destruct m as [a|e']; simpl; [eauto|intros [= ->]; auto]. Qed.

Lemma mapM_Ok {A B} (f : A -> result B) l out :
  mapM f l = Ok out -> Forall2 (fun x y => f x = Ok y) l out.
Proof.
  revert out. induction l as [|x t IH]; simpl; intros out H.
  - injection H as <-. constructor.
  - apply bind_Ok in H. destruct H as (y & Hy & H).
    apply bind_Ok in H. destruct H as (ys & Hys & H).
    injection H as <-. constructor; auto.
Qed.

Lemma mapM_Raise {A B} (f : A -> result B) l e :
  mapM f l = Raise e -> exists x, In x l /\ f x = Raise e.
Proof.
  induction l as [|x t IH]; simpl; [discriminate|]. intros H.
  apply bind_Raise in H. destruct H as [H|(y & Hy & H)].
  - exists x; auto.
  - apply bind_Raise in H. destruct H as [H|(ys & _ & H)]; [|discriminate].
    destruct (IH H) as (x' & Hin & Hx'). exists x'; auto.
Qed.

Lemma mapM_total {A B} (f : A -> result B) l :
  Forall (fun x => exists y, f x = Ok y) l -> exists out, mapM f l = Ok out.
Proof.
  induction 1 as [|x t (y & Hy) _ (ys & Hys)]; simpl; [eauto|].
  rewrite Hy, Hys. simpl. eauto.
Qed.

Lemma Forall2_nth_error_r {A B} (R : A -> B -> Prop) l out i y :
  Forall2 R l out -> nth_error out i = Some y ->
  exists x, nth_error l i = Some x /\ R x y.
Proof.
  intros H. revert i. induction H as [|x y' l out Hxy _ IH]; intros i.
  - destruct i; discriminate.
  - destruct i as [|i]; simpl; [intros [= <-]; eauto|apply IH].
Qed.

Lemma Forall2_nth_error_l {A B} (R : A -> B -> Prop) l out i x :
  Forall2 R l out -> nth_error l i = Some x ->
  exists y, nth_error out i = Some y /\ R x y.
Proof.
  intros H. revert i. induction H as [|x' y l out Hxy _ IH]; intros i.
  - destruct i; discriminate.
  - destruct i as [|i]; simpl; [intros [= <-]; eauto|apply IH].
Qed.

Lemma getitem_nat {A} (l : list A) k x :
  nth_error l k = Some x -> getitem l (Z.of_nat k) = Ok x.
Proof.
  intros H. unfold getitem.
  assert (Hk : (k < List.length l)%nat) by (apply nth_error_Some; congruence).
  destruct (Z.ltb_spec (Z.of_nat k) 0); [lia|].
  destruct (Z.leb_spec 0 (Z.of_nat k)); [|lia].
  destruct (Z.ltb_spec (Z.of_nat k) (Z.of_nat (List.length l))); [|lia].
  simpl. now rewrite Nat2Z.id, H.
Qed.

Lemma setitem_nat {A} (l : list A) k x :
  (k < List.length l)%nat -> setitem l (Z.of_nat k) x = Ok (replace_nth l k x).
Proof.
  intros Hk. unfold setitem.
  destruct (Z.ltb_spec (Z.of_nat k) 0); [lia|].
  destruct (Z.leb_spec 0 (Z.of_nat k)); [|lia].
  destruct (Z.ltb_spec (Z.of_nat k) (Z.of_nat (List.length l))); [|lia].
  simpl. now rewrite Nat2Z.id.
Qed.

Lemma replace_nth_length {A} (l : list A) k x :
  List.length (replace_nth l k x) = List.length l.
Proof.
  revert k. induction l as [|h t IH]; intros k; [reflexivity|].
  destruct k; simpl; [reflexivity|]. now rewrite IH.
Qed.

Lemma getitem_1 {A} (c s : A) rest : getitem (c :: s :: rest) 1 = Ok s.
Proof. exact (getitem_nat (c :: s :: rest) 1 s eq_refl). Qed.

Lemma getitem_2 {A} (c s e : A) rest : getitem (c :: s :: e :: rest) 2 = Ok e.
Proof. exact (getitem_nat (c :: s :: e :: rest) 2 e eq_refl). Qed.

Lemma setitem_1 {A} (c s : A) rest x :
  setitem (c :: s :: rest) 1 x = Ok (c :: x :: rest).
Proof. apply (setitem_nat (c :: s :: rest) 1 x). simpl. lia. Qed.

Lemma setitem_2 {A} (c s e : A) rest x :
  setitem (c :: s :: e :: rest) 2 x = Ok (c :: s :: x :: rest).
Proof. apply (setitem_nat (c :: s :: e :: rest) 2 x). simpl. lia. Qed.

Lemma int_of_string_Raise s e : int_of_string s = Raise e -> e = ValueError.
Proof.
  unfold int_of_string.
  assert (Hd : forall t e, digits t = Raise e -> e = ValueError).
  { intros t e'. unfold digits. destruct (NilZero.uint_of_string t); congruence. }
  assert (Hn : forall t e, bind (digits t) (fun z => Ok (- z)) = Raise e ->
                           e = ValueError).
  { intros t e' H. apply bind_Raise in H.
    destruct H as [H|(z & _ & H)]; [eauto|discriminate]. }
  destruct (rstrip isspace (lstrip isspace s)) as [|c r]; [apply Hd|].
  destruct c as [[|] [|] [|] [|] [|] [|] [|] [|]]; try apply Hd; apply Hn.
Qed.

(** *** [extend_bed] *)

(** The row that [extend_toks] computes from a row with three fields or
    more. *)
Lemma extend_toks_row bases chrom s e rest :
  extend_toks bases (chrom :: s :: e :: rest) =
    (v1 <- int_of_string s ;;
     v2 <- int_of_string e ;;
     let start := Z.max 0 (v1 - bases) in
     let end_ := Z.max 0 (v2 + bases) in
     let mid := (start + end_) / 2 in
     Ok (chrom :: str (if start >? end_ then mid else start)
               :: str (if start >? end_ then mid else end_) :: rest)).
Proof.
  unfold extend_toks. rewrite getitem_1, getitem_2. simpl bind at 1.
  destruct (int_of_string s) as [v1|err]; [|reflexivity]. simpl bind at 1.
  simpl bind at 1.
  destruct (int_of_string e) as [v2|err]; [|reflexivity]. simpl bind at 1.
  set (start := Z.max 0 (v1 - bases)). set (end_ := Z.max 0 (v2 + bases)).
  set (mid := (start + end_) / 2).
  assert (Hle : ((if start >? end_ then mid else start)
                 <=? (if start >? end_ then mid else end_)) = true).
  { apply Z.leb_le. destruct (Z.gtb_spec start end_); lia. }
  rewrite Hle. simpl bind at 1.
  rewrite setitem_1. simpl bind at 1. rewrite setitem_2. reflexivity.
Qed.

Lemma extend_toks_short bases toks e :
  (List.length toks < 3)%nat -> extend_toks bases toks = Raise e ->
  e = IndexError \/ e = ValueError.
Proof.
  intros H. unfold extend_toks.
  destruct toks as [|c [|s [|e' rest]]]; simpl in H; try lia.
  - intros [= <-]; auto.
  - intros [= <-]; auto.
  - rewrite getitem_1. simpl bind at 1.
    destruct (int_of_string s) as [v|err] eqn:Es; simpl bind at 1.
    + intros [= <-]; auto.
    + intros [= <-]. right. eapply int_of_string_Raise; eauto.
Qed.

Lemma row_ok_locs c s e rest a b :
  row_ok (c :: s :: e :: rest) -> row_ok (c :: str a :: str b :: rest).
Proof.
  intros (_ & Hs & Hc). repeat split; [discriminate| |].
  - inversion Hs as [|? ? Hc0 Hs1]; subst. inversion Hs1 as [|? ? _ Hs2]; subst.
    inversion Hs2 as [|? ? _ Hs3]; subst.
    repeat constructor; auto using no_sep_str.
  - destruct rest as [|r0 rest]; [apply clean_str|exact Hc].
Qed.

Lemma row_ok_loc c s a : row_ok [c; s] -> row_ok [c; str a].
Proof.
  intros (_ & Hs & Hc). repeat split; [discriminate| |apply clean_str].
  inversion Hs; subst. repeat constructor; auto using no_sep_str.
Qed.

Lemma row_fields l v1 v2 :
  row_start l = Ok v1 -> row_end l = Ok v2 ->
  exists chrom s e rest,
    tokens l = chrom :: s :: e :: rest
    /\ int_of_string s = Ok v1 /\ int_of_string e = Ok v2.
Proof.
  unfold row_start, row_end. intros H1 H2.
  destruct (tokens l) as [|c [|s [|e rest]]]; try discriminate.
  rewrite getitem_1 in H1. rewrite getitem_2 in H2. simpl in H1, H2.
  now exists c, s, e, rest.
Qed.

Lemma row_fields_inv l chrom s e rest :
  tokens l = chrom :: s :: e :: rest ->
  row_start l = int_of_string s /\ row_end l = int_of_string e.
Proof.
  unfold row_start, row_end. intros ->.
  now rewrite getitem_1, getitem_2.
Qed.

Lemma is_record_fields l :
  is_record l = true ->
  exists v1 v2, row_start l = Ok v1 /\ row_end l = Ok v2.
Proof.
  unfold is_record. destruct (row_start l); [|discriminate].
  destruct (row_end l); [eauto|discriminate].
Qed.

Lemma extend_line_Ok bases l l' :
  extend_line bases l = Ok l' ->
  exists v1 v2,
    row_start l = Ok v1 /\ row_end l = Ok v2 /\
    let start := Z.max 0 (v1 - bases) in
    let end_ := Z.max 0 (v2 + bases) in
    let mid := (start + end_) / 2 in
    row_start l' = Ok (if start >? end_ then mid else start) /\
    row_end l' = Ok (if start >? end_ then mid else end_) /\
    List.length (tokens l') = List.length (tokens l) /\
    (forall j, j <> 1%nat -> j <> 2%nat ->
               nth_error (tokens l') j = nth_error (tokens l) j).
Proof.
  unfold extend_line. intros H. apply bind_Ok in H.
  destruct H as (toks' & Ht & H). injection H as <-.
  pose proof (tokens_row_ok l) as Hok.
  destruct (tokens l) as [|c [|s [|e rest]]] eqn:El;
    try (unfold extend_toks in Ht; simpl in Ht; discriminate).
  { unfold extend_toks in Ht. rewrite getitem_1 in Ht. simpl bind in Ht.
    destruct (int_of_string s); discriminate. }
  rewrite extend_toks_row in Ht.
  apply bind_Ok in Ht. destruct Ht as (v1 & Hv1 & Ht).
  apply bind_Ok in Ht. destruct Ht as (v2 & Hv2 & Ht).
  cbv zeta in Ht. injection Ht as <-.
  destruct (row_fields_inv l c s e rest El) as (Hs & He).
  exists v1, v2. rewrite Hs, He. repeat split; try assumption.
  - unfold row_start. rewrite tokens_print_row by (eapply row_ok_locs; eauto).
    rewrite getitem_1. simpl. apply int_of_string_str.
  - unfold row_end. rewrite tokens_print_row by (eapply row_ok_locs; eauto).
    rewrite getitem_2. simpl. apply int_of_string_str.
  - rewrite tokens_print_row by (eapply row_ok_locs; eauto). reflexivity.
  - intros j H1 H2. rewrite tokens_print_row by (eapply row_ok_locs; eauto).
    destruct j as [|[|[|j]]]; try reflexivity; congruence.
Qed.

Lemma extend_line_Raise bases l e :
  extend_line bases l = Raise e -> e = IndexError \/ e = ValueError.
Proof.
  unfold extend_line. intros H. apply bind_Raise in H.
  destruct H as [H|(t & _ & H)]; [|discriminate].
  destruct (tokens l) as [|c [|s [|e' rest]]] eqn:El;
    try (eapply extend_toks_short; [|exact H]; simpl; lia).
  rewrite extend_toks_row in H.
  apply bind_Raise in H. destruct H as [H|(v1 & _ & H)];
    [right; eapply int_of_string_Raise; eauto|].
  apply bind_Raise in H. destruct H as [H|(v2 & _ & H)];
    [right; eapply int_of_string_Raise; eauto|discriminate].
Qed.

Lemma extend_line_total bases l :
  is_record l = true -> exists l', extend_line bases l = Ok l'.
Proof.
  intros H. destruct (is_record_fields l H) as (v1 & v2 & H1 & H2).
  destruct (row_fields l v1 v2 H1 H2) as (c & s & e & rest & El & Hs & He).
  unfold extend_line. rewrite El, extend_toks_row, Hs, He. simpl. eauto.
Qed.

(** C3.  Whatever the input and the width, [extend_bed] never fails its
    assertion; it succeeds on every file whose rows have integer start and
    end fields; and every record written has [0 <= start <= end], where
    start and end are the input's moved by [bases / 2] and clamped at 0,
    or both their midpoint when these would be inverted.  On a record with
    [0 <= start <= end] and [bases >= 0] this is
    [max 0 (start - half), end + half]. *)
Theorem extend_bed_start_le_end (fin : file) (bases : Z) :
  (forall args, extend_bed fin bases <> Raise (AssertionError args)) /\
  (forallb is_record fin = true -> exists fout, extend_bed fin bases = Ok fout) /\
  (forall fout, extend_bed fin bases = Ok fout ->
     List.length fout = List.length fin /\
     forall i l', nth_error fout i = Some l' ->
       exists l v1 v2 s' e',
         nth_error fin i = Some l /\
         row_start l = Ok v1 /\ row_end l = Ok v2 /\
         row_start l' = Ok s' /\ row_end l' = Ok e' /\
         0 <= s' <= e' /\
         let start := Z.max 0 (v1 - bases / 2) in
         let end_ := Z.max 0 (v2 + bases / 2) in
         (start <= end_ -> s' = start /\ e' = end_) /\
         (start > end_ ->
            s' = (start + end_) / 2 /\ e' = (start + end_) / 2) /\
         (0 <= bases -> 0 <= v1 <= v2 ->
            s' = Z.max 0 (v1 - bases / 2) /\ e' = v2 + bases / 2)).
Proof.
  change (extend_bed fin bases) with (mapM (extend_line (bases / 2)) fin).
  split; [|split].
  - intros args H. apply mapM_Raise in H. destruct H as (l & _ & H).
    apply extend_line_Raise in H. destruct H; discriminate.
  - intros H. apply mapM_total. rewrite forallb_forall in H.
    apply Forall_forall. intros l Hl. apply extend_line_total. auto.
  - intros fout H. apply mapM_Ok in H. split.
    + symmetry. eapply Forall2_length; eauto.
    + intros i l' Hi.
      destruct (Forall2_nth_error_r _ _ _ _ _ H Hi) as (l & Hl & Hx).
      apply extend_line_Ok in Hx.
      destruct Hx as (v1 & v2 & H1 & H2 & H3 & H4 & _).
      set (start := Z.max 0 (v1 - bases / 2)) in *.
      set (end_ := Z.max 0 (v2 + bases / 2)) in *.
      assert (Hdiv : 0 <= (start + end_) / 2)
        by (apply Z.div_pos; lia).
      assert (Hb : 0 <= bases -> 0 <= bases / 2)
        by (intros; apply Z.div_pos; lia).
      exists l, v1, v2.
      exists (if start >? end_ then (start + end_) / 2 else start).
      exists (if start >? end_ then (start + end_) / 2 else end_).
      repeat split; try assumption;
        destruct (Z.gtb_spec start end_); try lia; reflexivity.
Qed.

(** *** [distance_shuffle] *)

Lemma shuffle_toks_row d chrom s e rest :
  shuffle_toks d (chrom :: s :: e :: rest) =
    (v1 <- int_of_string s ;;
     v2 <- int_of_string e ;;
     Ok (chrom :: str (Z.max 0 (v1 + d)) :: str (Z.max 0 (v2 + d)) :: rest)).
Proof.
  unfold shuffle_toks. simpl.
  destruct (int_of_string s); [|reflexivity]. simpl.
  destruct (int_of_string e); reflexivity.
Qed.

Lemma shuffle_toks_Ok d l toks' :
  shuffle_toks d (tokens l) = Ok toks' ->
  tokens (print_row toks') = toks' /\
  List.length toks' = List.length (tokens l) /\
  (forall j, j <> 1%nat -> j <> 2%nat ->
             nth_error toks' j = nth_error (tokens l) j) /\
  (forall v1, row_start l = Ok v1 ->
              row_start (print_row toks') = Ok (Z.max 0 (v1 + d))) /\
  (forall v2, row_end l = Ok v2 ->
              row_end (print_row toks') = Ok (Z.max 0 (v2 + d))).
Proof.
  unfold row_start, row_end.
  pose proof (tokens_row_ok l) as Hok.
  destruct (tokens l) as [|c [|s [|e rest]]].
  - destruct Hok as (Hn & _). congruence.
  - intros [= <-]. rewrite (tokens_print_row _ Hok).
    refine (conj eq_refl (conj eq_refl (conj _ (conj _ _))));
      [reflexivity|discriminate|discriminate].
  - unfold shuffle_toks. simpl. intros H.
    destruct (int_of_string s) as [v|] eqn:Es; [|discriminate].
    injection H as <-.
    rewrite tokens_print_row by (eapply row_ok_loc; eauto).
    refine (conj eq_refl (conj eq_refl (conj _ (conj _ _)))).
    + intros j H1 H2. destruct j as [|[|j]]; try reflexivity; congruence.
    + rewrite !getitem_1. cbn [bind]. intros v1 [= <-].
      apply int_of_string_str.
    + discriminate.
  - rewrite shuffle_toks_row. intros H.
    apply bind_Ok in H. destruct H as (v1 & Hv1 & H).
    apply bind_Ok in H. destruct H as (v2 & Hv2 & H). injection H as <-.
    rewrite tokens_print_row by (eapply row_ok_locs; eauto).
    refine (conj eq_refl (conj eq_refl (conj _ (conj _ _)))).
    + intros j H1 H2. destruct j as [|[|[|j]]]; try reflexivity; congruence.
    + rewrite !getitem_1. cbn [bind]. rewrite Hv1. intros v [= <-].
      apply int_of_string_str.
    + rewrite !getitem_2. cbn [bind]. rewrite Hv2. intros v [= <-].
      apply int_of_string_str.
Qed.

Lemma shuffle_toks_total d l :
  is_record l = true -> exists toks', shuffle_toks d (tokens l) = Ok toks'.
Proof.
  intros H. destruct (is_record_fields l H) as (v1 & v2 & H1 & H2).
  destruct (row_fields l v1 v2 H1 H2) as (c & s & e & rest & El & Hs & He).
  rewrite El, shuffle_toks_row, Hs, He. simpl. eauto.
Qed.

Lemma randval_range a b raw : a <= b -> a <= randval a b raw <= b.
Proof.
  intros H. unfold randval.
  pose proof (Z.mod_pos_bound raw (b - a + 1)). lia.
Qed.

Lemma randval_onto a b d : a <= d <= b -> randval a b (d - a) = d.
Proof. intros H. unfold randval. rewrite Z.mod_small; lia. Qed.

Lemma distance_shuffle_rows_Ok dist bed : forall g out g',
  distance_shuffle_rows dist bed g = Ok (out, g') ->
  tape g' = tape g /\ pos g' = (pos g + List.length bed)%nat /\
  List.length out = List.length bed /\
  forall i l, nth_error bed i = Some l ->
    exists toks', shuffle_toks (offset dist g i) (tokens l) = Ok toks'
                  /\ nth_error out i = Some (print_row toks').
Proof.
  induction bed as [|l0 rest IH]; intros g out g' H; simpl in H.
  - injection H as <- <-. repeat split; auto.
    intros i l Hi. destruct i; discriminate.
  - apply bind_Ok in H. destruct H as (toks' & Ht & H).
    apply bind_Ok in H. destruct H as ([out1 g2] & Hrec & H).
    injection H as <- <-.
    destruct (IH _ _ _ Hrec) as (Htape & Hpos & Hlen & Hrows).
    simpl in Htape, Hpos. repeat split.
    + exact Htape.
    + rewrite Hpos. simpl. lia.
    + simpl. now rewrite Hlen.
    + intros i l Hi. destruct i as [|i]; simpl in Hi.
      * injection Hi as <-. exists toks'. split; [|reflexivity].
        unfold offset. now rewrite Nat.add_0_r.
      * destruct (Hrows i l Hi) as (t & Hs & Hn). exists t. split; [|exact Hn].
        unfold offset in *. simpl in Hs.
        now replace (pos g + S i)%nat with (S (pos g) + i)%nat by lia.
Qed.

Lemma distance_shuffle_rows_total dist bed : forall g,
  forallb is_record bed = true ->
  exists out g', distance_shuffle_rows dist bed g = Ok (out, g').
Proof.
  induction bed as [|l0 rest IH]; intros g H; simpl in *; [eauto|].
  apply andb_prop in H. destruct H as [H0 Hr].
  destruct (shuffle_toks_total
              (randval (- dist) dist (tape g (pos g))) l0 H0) as (t & Ht).
  rewrite Ht. simpl.
  destruct (IH (mkRng (tape g) (S (pos g))) Hr) as (out & g' & Hrec).
  rewrite Hrec. simpl. eauto.
Qed.

Lemma distance_shuffle_Ok bed dist g out g' :
  distance_shuffle bed dist g = Ok (out, g') ->
  exists D, int dist = Ok D /\
            distance_shuffle_rows (Z.abs D) bed g = Ok (out, g').
Proof.
  unfold distance_shuffle. intros H. apply bind_Ok in H.
  destruct H as (D & HD & H). eauto.
Qed.

(** C1, as the code has it.  [distance_shuffle] succeeds on every file of
    records; it draws one offset per row, any of [[-|dist|, |dist|]], and
    writes [max 0 (start + d)] and [max 0 (end + d)]: the start is never
    negative, the width is kept when [start + d >= 0], and when the offset
    would push the start below 0 the start is 0, the end is
    [max 0 (end + d)] and a record of positive width gets narrower. *)
Theorem distance_shuffle_offsets (bed : file) (dist : value) (D : Z) (g : rng) :
  int dist = Ok D ->
  (forall d, - Z.abs D <= d <= Z.abs D ->
   exists raw, randval (- Z.abs D) (Z.abs D) raw = d) /\
  (forallb is_record bed = true ->
   exists out g', distance_shuffle bed dist g = Ok (out, g')) /\
  (forall out g', distance_shuffle bed dist g = Ok (out, g') ->
     pos g' = (pos g + List.length bed)%nat /\
     forall i l v1 v2,
       nth_error bed i = Some l -> row_start l = Ok v1 -> row_end l = Ok v2 ->
       let d := offset (Z.abs D) g i in
       exists l' s' e',
         nth_error out i = Some l' /\
         row_start l' = Ok s' /\ row_end l' = Ok e' /\
         - Z.abs D <= d <= Z.abs D /\
         s' = Z.max 0 (v1 + d) /\ e' = Z.max 0 (v2 + d) /\
         0 <= s' /\
         (0 <= v1 + d -> v1 <= v2 -> e' - s' = v2 - v1) /\
         (v1 + d < 0 ->
            s' = 0 /\ e' = Z.max 0 (v2 + d) /\
            (v1 < v2 -> e' - s' < v2 - v1))).
Proof.
  intros HD. split; [|split].
  - intros d Hd. exists (d - - Z.abs D). now apply randval_onto.
  - intros Hrec. unfold distance_shuffle. rewrite HD. simpl.
    now apply distance_shuffle_rows_total.
  - intros out g' H. apply distance_shuffle_Ok in H.
    destruct H as (D' & HD' & H). rewrite HD in HD'. injection HD' as <-.
    apply distance_shuffle_rows_Ok in H.
    destruct H as (_ & Hpos & _ & Hrows). split; [exact Hpos|].
    intros i l v1 v2 Hi H1 H2 d.
    destruct (Hrows i l Hi) as (toks' & Hs & Hn).
    apply shuffle_toks_Ok in Hs. destruct Hs as (_ & _ & _ & Hst & Hen).
    exists (print_row toks'), (Z.max 0 (v1 + d)), (Z.max 0 (v2 + d)).
    pose proof (randval_range (- Z.abs D) (Z.abs D)
                  (tape g (pos g + i)) ltac:(lia)) as Hr.
    fold (offset (Z.abs D) g i) in Hr. fold d in Hr.
    split; [exact Hn|]. split; [exact (Hst v1 H1)|].
    split; [exact (Hen v2 H2)|]. split; [exact Hr|].
    repeat split; lia.
Qed.

(** C7.  The files written by [distance_shuffle] and by [extend_bed] have
    the records of the input in the same number and order, and each
    record keeps its number of fields and every field but start and end. *)
Theorem shuffle_extend_frame (bed : file) :
  (forall dist g out g',
     distance_shuffle bed dist g = Ok (out, g') -> frame_preserved bed out) /\
  (forall bases out,
     extend_bed bed bases = Ok out -> frame_preserved bed out).
Proof.
  split.
  - intros dist g out g' H. apply distance_shuffle_Ok in H.
    destruct H as (D & _ & H). apply distance_shuffle_rows_Ok in H.
    destruct H as (_ & _ & Hlen & Hrows). split; [exact Hlen|].
    intros i l l' Hi Ho.
    destruct (Hrows i l Hi) as (toks' & Hs & Hn).
    rewrite Hn in Ho. injection Ho as <-.
    apply shuffle_toks_Ok in Hs. destruct Hs as (Ht & Hl & Hj & _).
    rewrite Ht. split; assumption.
  - intros bases out H. unfold extend_bed in H. apply mapM_Ok in H.
    split; [symmetry; eapply Forall2_length; eauto|].
    intros i l l' Hi Ho.
    destruct (Forall2_nth_error_l _ _ _ _ _ H Hi) as (y & Hy & Hx).
    rewrite Hy in Ho. injection Ho as <-.
    apply extend_line_Ok in Hx.
    destruct Hx as (v1 & v2 & _ & _ & _ & _ & Hl & Hj). split; assumption.
Qed.

(** *** [bed_sample] *)

Lemma replace_nth_map {A B} (f : A -> B) l k x :
  replace_nth (map f l) k (f x) = map f (replace_nth l k x).
Proof.
  revert k. induction l as [|h t IH]; intros k; [reflexivity|].
  destruct k; simpl; [reflexivity|]. now rewrite IH.
Qed.

Lemma sample_step_map {A B} (f : A -> B) n i x lines g :
  sample_step n i (f x) (map f lines) g
  = map_fst (map f) (sample_step n i x lines g).
Proof.
  unfold sample_step, randint. destruct (i <? n).
  - simpl. now rewrite map_app.
  - set (r := randval 0 i (tape g (pos g))).
    destruct (r <? n); [|reflexivity].
    unfold setitem. rewrite length_map.
    match goal with |- context [if ?c then _ else _] => destruct c end;
      [|reflexivity].
    simpl. now rewrite replace_nth_map.
Qed.

Lemma sample_loop_map {A B} (f : A -> B) n bed : forall i lines g,
  sample_loop n (map f bed) i (map f lines) g
  = map_fst (map f) (sample_loop n bed i lines g).
Proof.
  induction bed as [|x t IH]; intros i lines g; [reflexivity|].
  simpl. rewrite sample_step_map.
  destruct (sample_step n i x lines g) as [[ls g1]|e]; [|reflexivity].
  simpl. apply IH.
Qed.

Lemma sample_loop_app {A} n (l1 l2 : list A) : forall i lines g,
  sample_loop n (l1 ++ l2)%list i lines g
  = ('(ls, g1) <- sample_loop n l1 i lines g ;;
     sample_loop n l2 (i + len l1) ls g1).
Proof.
  induction l1 as [|x t IH]; intros i lines g.
  - simpl. unfold len. simpl. now rewrite Z.add_0_r.
  - simpl. destruct (sample_step n i x lines g) as [[ls g1]|e]; [|reflexivity].
    simpl. rewrite IH. unfold len. simpl List.length.
    rewrite Nat2Z.inj_succ.
    now replace (i + 1 + Z.of_nat (List.length t))
      with (i + Z.succ (Z.of_nat (List.length t))) by lia.
Qed.

Lemma map_nth_seq_id {A} (l : list A) d :
  map (fun j => nth j l d) (seq 0 (List.length l)) = l.
Proof.
  induction l as [|a t IH]; [reflexivity|].
  simpl List.length. simpl seq. simpl map. f_equal.
  rewrite <- seq_shift, map_map. exact IH.
Qed.

Lemma replace_nth_NoDup (l : list nat) k a :
  NoDup l -> ~ In a l -> NoDup (replace_nth l k a).
Proof.
  revert k. induction l as [|h t IH]; intros k Hnd Hin; [constructor|].
  inversion Hnd as [|? ? Hh Ht]; subst.
  destruct k as [|k]; simpl.
  - constructor; [|exact Ht]. intros H. apply Hin. now right.
  - constructor; [|apply IH; auto; intros H; apply Hin; now right].
    intros H. assert (Hor : h = a \/ In h t).
    { clear - H. revert k H. induction t as [|x t IHt]; intros k H;
        [destruct H|].
      destruct k; simpl in H.
      - destruct H as [H|H]; [left; congruence|right; now right].
      - destruct H as [H|H]; [right; now left|].
        destruct (IHt _ H); [now left|right; now right]. }
    destruct Hor as [->|Hor]; [apply Hin; now left|contradiction].
Qed.

Lemma replace_nth_Forall {A} (P : A -> Prop) l k a :
  Forall P l -> P a -> Forall P (replace_nth l k a).
Proof.
  revert k. induction l as [|h t IH]; intros k Hl Ha; [constructor|].
  inversion Hl; subst. destruct k; simpl; constructor; auto.
Qed.

(** The reservoir of the indices: an invariant of the loop. *)
Lemma sample_loop_seq n m : forall a lines g,
  NoDup lines -> Forall (fun j => (j < a)%nat) lines ->
  List.length lines = Z.to_nat (Z.min n (Z.of_nat a)) ->
  exists idxs g',
    sample_loop n (seq a m) (Z.of_nat a) lines g = Ok (idxs, g') /\
    NoDup idxs /\ Forall (fun j => (j < a + m)%nat) idxs /\
    List.length idxs = Z.to_nat (Z.min n (Z.of_nat (a + m))) /\
    tape g' = tape g /\ pos g' = (pos g + draws n a m)%nat.
Proof.
  induction m as [|m IH]; intros a lines g Hnd Hlt Hlen.
  - exists lines, g. simpl. rewrite Nat.add_0_r. unfold draws.
    repeat split; auto. rewrite Nat.add_0_r. lia.
  - simpl seq. simpl sample_loop. unfold sample_step.
    assert (Hfresh : ~ In a lines).
    { intros Hin. rewrite Forall_forall in Hlt. specialize (Hlt _ Hin). lia. }
    assert (Hlt' : Forall (fun j => (j < S a)%nat) lines).
    { eapply Forall_impl; [|exact Hlt]. simpl. intros; lia. }
    destruct (Z.ltb_spec (Z.of_nat a) n) as [Han|Han].
    + simpl bind.
      replace (Z.of_nat a + 1) with (Z.of_nat (S a)) by lia.
      destruct (IH (S a) (lines ++ [a])%list g) as (idxs & g' & Hrun & H1 & H2 & H3 & H4 & H5).
      * apply NoDup_app; [exact Hnd|repeat constructor; intros []|].
        intros x Hx [<-|[]]. contradiction.
      * apply Forall_app. split; [exact Hlt'|]. repeat constructor.
      * rewrite length_app, Hlen. simpl. lia.
      * exists idxs, g'. rewrite Hrun.
        replace (a + S m)%nat with (S a + m)%nat by lia.
        repeat split; auto. rewrite H5. unfold draws. lia.
    + unfold randint.
      pose proof (randval_range 0 (Z.of_nat a) (tape g (pos g)) ltac:(lia)) as Hr.
      set (r := randval 0 (Z.of_nat a) (tape g (pos g))) in *.
      set (g1 := mkRng (tape g) (S (pos g))).
      destruct (Z.ltb_spec r n) as [Hrn|Hrn].
      * assert (Hset : setitem lines r a = Ok (replace_nth lines (Z.to_nat r) a)).
        { rewrite <- (Z2Nat.id r) at 1 by lia. apply setitem_nat. lia. }
        rewrite Hset. simpl bind.
        replace (Z.of_nat a + 1) with (Z.of_nat (S a)) by lia.
        destruct (IH (S a) (replace_nth lines (Z.to_nat r) a) g1)
          as (idxs & g' & Hrun & H1 & H2 & H3 & H4 & H5).
        -- now apply replace_nth_NoDup.
        -- apply replace_nth_Forall; [exact Hlt'|lia].
        -- rewrite replace_nth_length, Hlen. lia.
        -- exists idxs, g'. rewrite Hrun.
           replace (a + S m)%nat with (S a + m)%nat by lia.
           repeat split; auto. rewrite H5. unfold draws. subst g1. cbn [pos]. lia.
      * simpl bind.
        replace (Z.of_nat a + 1) with (Z.of_nat (S a)) by lia.
        destruct (IH (S a) lines g1)
          as (idxs & g' & Hrun & H1 & H2 & H3 & H4 & H5).
        -- exact Hnd.
        -- exact Hlt'.
        -- rewrite Hlen. lia.
        -- exists idxs, g'. rewrite Hrun.
           replace (a + S m)%nat with (S a + m)%nat by lia.
           repeat split; auto. rewrite H5. unfold draws. subst g1. cbn [pos]. lia.
Qed.

Lemma nth_error_replace_nth_eq {A} (l : list A) k x :
  (k < List.length l)%nat -> nth_error (replace_nth l k x) k = Some x.
Proof.
  revert k. induction l as [|h t IH]; intros k Hk; [simpl in Hk; lia|].
  destruct k; simpl; [reflexivity|]. apply IH. simpl in Hk. lia.
Qed.

Lemma nth_error_replace_nth_neq {A} (l : list A) k x j :
  j <> k -> nth_error (replace_nth l k x) j = nth_error l j.
Proof.
  revert k j. induction l as [|h t IH]; intros k j Hjk; [reflexivity|].
  destruct k, j; simpl; try reflexivity; [congruence|].
  apply IH. congruence.
Qed.

(** What a slot holds is not changed by a record that goes by without
    taking the slot. *)
Lemma slot_holds_next n g a j i :
  (n <= Z.of_nat a -> draw_for n g a <> Z.of_nat j) ->
  slot_holds n g a j i -> slot_holds n g (S a) j i.
Proof.
  intros Ha (Hi & Hlater). split; [exact Hi|].
  intros i' Hi' Hn. destruct (Nat.eq_dec i' a) as [->|Hne].
  - now apply Ha.
  - apply Hlater; [lia|exact Hn].
Qed.

(** The slots of the reservoir of indices: an invariant of the loop,
    from the random source [g0] at the start of the file. *)
Lemma sample_loop_slots n g0 m : forall a lines g idxs g',
  tape g = tape g0 -> pos g = (pos g0 + draws n 0 a)%nat ->
  List.length lines = Z.to_nat (Z.min n (Z.of_nat a)) ->
  (forall j i, nth_error lines j = Some i -> slot_holds n g0 a j i) ->
  sample_loop n (seq a m) (Z.of_nat a) lines g = Ok (idxs, g') ->
  forall j i, nth_error idxs j = Some i -> slot_holds n g0 (a + m) j i.
Proof.
  induction m as [|m IH]; intros a lines g idxs g' Htape Hpos Hlen Hinv Hrun.
  - simpl in Hrun. injection Hrun as <- <-. now rewrite Nat.add_0_r.
  - simpl seq in Hrun. simpl sample_loop in Hrun. unfold sample_step in Hrun.
    replace (a + S m)%nat with (S a + m)%nat by lia.
    destruct (Z.ltb_spec (Z.of_nat a) n) as [Han|Han].
    + cbn [bind] in Hrun.
      replace (Z.of_nat a + 1) with (Z.of_nat (S a)) in Hrun by lia.
      apply (IH (S a) (lines ++ [a])%list g idxs g'); auto.
      * rewrite Hpos. unfold draws. lia.
      * rewrite length_app, Hlen. simpl. lia.
      * intros j i Hj.
        destruct (Nat.lt_ge_cases j (List.length lines)) as [Hlt|Hge].
        -- rewrite nth_error_app1 in Hj by exact Hlt.
           apply slot_holds_next; [lia|now apply Hinv].
        -- rewrite nth_error_app2 in Hj by exact Hge.
           destruct (j - List.length lines)%nat as [|d] eqn:Ed;
             [|destruct d; discriminate].
           injection Hj as <-.
           assert (j = a) by lia. subst j.
           split; [now left|]. intros i' Hi'. lia.
    + unfold randint in Hrun.
      pose proof (randval_range 0 (Z.of_nat a) (tape g (pos g)) ltac:(lia)) as Hr.
      assert (Hdraw : draw_for n g0 a = randval 0 (Z.of_nat a) (tape g (pos g))).
      { unfold draw_for. rewrite Htape, Hpos. unfold draws. do 2 f_equal. lia. }
      set (r := randval 0 (Z.of_nat a) (tape g (pos g))) in *.
      set (g1 := mkRng (tape g) (S (pos g))) in *.
      assert (Hpos1 : pos g1 = (pos g0 + draws n 0 (S a))%nat).
      { subst g1. cbn [pos]. rewrite Hpos. unfold draws. lia. }
      destruct (Z.ltb_spec r n) as [Hrn|Hrn].
      * assert (Hset : setitem lines r a = Ok (replace_nth lines (Z.to_nat r) a)).
        { rewrite <- (Z2Nat.id r) at 1 by lia. apply setitem_nat. lia. }
        rewrite Hset in Hrun. cbn [bind] in Hrun.
        replace (Z.of_nat a + 1) with (Z.of_nat (S a)) in Hrun by lia.
        apply (IH (S a) (replace_nth lines (Z.to_nat r) a) g1 idxs g'); auto.
        -- rewrite replace_nth_length, Hlen. lia.
        -- intros j i Hj. destruct (Nat.eq_dec j (Z.to_nat r)) as [->|Hne].
           ++ rewrite nth_error_replace_nth_eq in Hj by lia.
              injection Hj as <-. split.
              ** right. split; [exact Han|]. rewrite Hdraw. lia.
              ** intros i' Hi'. lia.
           ++ rewrite nth_error_replace_nth_neq in Hj by exact Hne.
              apply slot_holds_next; [|now apply Hinv].
              intros _. rewrite Hdraw. lia.
      * cbn [bind] in Hrun.
        replace (Z.of_nat a + 1) with (Z.of_nat (S a)) in Hrun by lia.
        apply (IH (S a) lines g1 idxs g'); auto.
        -- rewrite Hlen. lia.
        -- intros j i Hj. apply slot_holds_next; [|now apply Hinv].
           intros _. rewrite Hdraw.
           assert (j < List.length lines)%nat
             by (apply nth_error_Some; congruence).
           lia.
Qed.

(** The reservoir of [bed_sample] is read off the reservoir of indices,
    and each of its slots off the draws. *)
Lemma bed_sample_indices (bed : file) (n : value) (k : Z) (g : rng) :
  int n = Ok k ->
  exists idxs g',
    bed_sample_lines bed n g = Ok (map (fun j => nth j bed "") idxs, g') /\
    NoDup idxs /\ Forall (fun j => (j < List.length bed)%nat) idxs /\
    List.length idxs = Z.to_nat (Z.min k (len bed)) /\
    tape g' = tape g /\ pos g' = (pos g + draws k 0 (List.length bed))%nat /\
    forall j i, nth_error idxs j = Some i ->
                slot_holds k g (List.length bed) j i.
Proof.
  intros Hk.
  destruct (sample_loop_seq k (List.length bed) 0 [] g)
    as (idxs & g' & Hrun & H1 & H2 & H3 & H4 & H5).
  { constructor. } { constructor. } { simpl. lia. }
  exists idxs, g'.
  refine (conj _ (conj H1 (conj H2 (conj H3 (conj H4 (conj H5 _)))))).
  - unfold bed_sample_lines. rewrite Hk. simpl bind.
    rewrite <- (map_nth_seq_id bed "") at 1.
    change (@nil string) with (map (fun j => nth j bed "") []).
    rewrite sample_loop_map. change (Z.of_nat 0) with 0 in Hrun.
    now rewrite Hrun.
  - apply (sample_loop_slots k g (List.length bed) 0 [] g idxs g').
    + reflexivity.
    + unfold draws. simpl. lia.
    + simpl. lia.
    + intros j i Hj. destruct j; discriminate.
    + exact Hrun.
Qed.

(** The text printed is the reservoir joined. *)
Lemma bed_sample_text bed n g lines g' :
  bed_sample_lines bed n g = Ok (lines, g') ->
  bed_sample bed n g = Ok (String.concat "" lines, g').
Proof. intros H. unfold bed_sample. now rewrite H. Qed.

Lemma string_app_nil_r (s : string) : s ++ "" = s.
Proof. induction s as [|c r IH]; simpl; [reflexivity|now rewrite IH]. Qed.

Lemma string_app_assoc (s t u : string) : (s ++ t) ++ u = s ++ (t ++ u).
Proof. induction s as [|c r IH]; simpl; [reflexivity|now rewrite IH]. Qed.

Lemma concat_empty_cons x xs :
  String.concat "" (x :: xs) = x ++ String.concat "" xs.
Proof. destruct xs; simpl; [now rewrite string_app_nil_r|reflexivity]. Qed.

Lemma softspace_app_LF body :
  softspace (body ++ String LF EmptyString) = false.
Proof.
  induction body as [|c r IH]; [reflexivity|].
  simpl. destruct (r ++ String LF EmptyString) eqn:E; [|exact IH].
  destruct r; discriminate.
Qed.

(** Lines that end with a newline, joined, end with a newline. *)
Lemma concat_ends_LF ls :
  ls <> [] ->
  Forall (fun l => exists body, l = body ++ String LF EmptyString) ls ->
  exists body, String.concat "" ls = body ++ String LF EmptyString.
Proof.
  induction ls as [|x t IH]; [congruence|]. intros _ Hall.
  inversion Hall as [|? ? (bx & Hx) Ht]; subst.
  destruct t as [|y t]; [simpl; eauto|].
  destruct (IH ltac:(discriminate) Ht) as (body & Hb).
  exists (bx ++ String LF EmptyString ++ body).
  rewrite concat_empty_cons, Hb. now rewrite <- !string_app_assoc.
Qed.

(** When the lines of the reservoir end with a newline and there is one
    at least, the process exits with the soft space unset: its output is
    the text printed. *)
Lemma bed_sample_stdout_text bed n g lines g' :
  bed_sample_lines bed n g = Ok (lines, g') ->
  lines <> [] ->
  Forall (fun l => exists body, l = body ++ String LF EmptyString) lines ->
  bed_sample_stdout bed n g = String.concat "" lines.
Proof.
  intros H Hne Hall. unfold bed_sample_stdout.
  rewrite (bed_sample_text _ _ _ _ _ H).
  destruct (concat_ends_LF lines Hne Hall) as (body & ->).
  now rewrite softspace_app_LF.
Qed.

(** *** Reading a text line by line *)

Lemma readlines_app l s :
  terminated l = true -> readlines (l ++ s) = l :: readlines s.
Proof.
  induction l as [|c r IH]; [discriminate|]. simpl.
  destruct (Ascii.eqb c LF) eqn:E.
  - intros Hr. apply String.eqb_eq in Hr. subst r.
    apply Ascii.eqb_eq in E. now subst c.
  - intros Hr. now rewrite (IH Hr).
Qed.

(** Lines that all end with their newline are read back as they were
    printed. *)
Lemma readlines_concat ls :
  forallb terminated ls = true -> readlines (String.concat "" ls) = ls.
Proof.
  induction ls as [|l t IH]; [reflexivity|].
  intros H. apply andb_prop in H. destruct H as [Hl Ht].
  rewrite concat_empty_cons, (readlines_app _ _ Hl). now rewrite (IH Ht).
Qed.

Lemma terminated_ends_LF l :
  terminated l = true -> exists body, l = body ++ String LF EmptyString.
Proof.
  induction l as [|c r IH]; [discriminate|]. simpl.
  destruct (Ascii.eqb c LF) eqn:E.
  - intros Hr. apply String.eqb_eq in Hr. subst r.
    apply Ascii.eqb_eq in E. subst c. now exists "".
  - intros Hr. destruct (IH Hr) as (body & ->). now exists (String c body).
Qed.

Lemma terminated_app_LF body :
  no_sep LF body = true -> terminated (body ++ String LF EmptyString) = true.
Proof.
  unfold no_sep. induction body as [|c r IH]; [reflexivity|]. simpl.
  intros H. apply andb_prop in H. destruct H as [Hc Hr].
  apply negb_true_iff in Hc. rewrite Hc. now apply IH.
Qed.

(** A line of a file, copied by [fixle], ends with its only newline. *)
Lemma terminated_reprint l : is_line l = true -> terminated (reprint l) = true.
Proof.
  intros H. unfold reprint, print_row, tokens. rewrite join_split.
  now apply terminated_app_LF.
Qed.

(** C2.  The claim fails on a file whose last line has no newline.  Asked
    for 2 of the 3 records of [unterminated_bed], with a draw that puts
    the third record into the first slot, [bed_sample] prints that record
    and the second one glued into a single line, which is no record of
    the input, where the claim has [min 2 3 = 2] records. *)
Theorem bed_sample_glues_unterminated_line :
  bed_sample_lines unterminated_bed (PInt 2) (Reference.constant 0)
    = Ok ([join TAB ["chr1"; "5"; "6"]; print_row ["chr1"; "3"; "4"]],
          mkRng (fun _ => 0) 1) /\
  bed_sample unterminated_bed (PInt 2) (Reference.constant 0)
    = Ok (print_row ["chr1"; "5"; "6chr1"; "3"; "4"], mkRng (fun _ => 0) 1) /\
  readlines (bed_sample_stdout unterminated_bed (PInt 2)
               (Reference.constant 0))
    = [print_row ["chr1"; "5"; "6chr1"; "3"; "4"]] /\
  ~ In (print_row ["chr1"; "5"; "6chr1"; "3"; "4"]) unterminated_bed /\
  List.length (readlines (bed_sample_stdout unterminated_bed (PInt 2)
                            (Reference.constant 0)))
  <> Nat.min (Z.to_nat 2) (List.length unterminated_bed).
Proof.
  split; [reflexivity|]. split; [reflexivity|]. split; [reflexivity|].
  split.
  - intros [H|[H|[H|[]]]]; discriminate H.
  - vm_compute. discriminate.
Qed.

(** C8, as the code has it.  With a sample size [k <= 0], [bed_sample]
    raises nothing: it reads the whole stream, calls [randint] once per
    record, ends with an empty reservoir and prints the empty text. *)
Theorem bed_sample_nonpositive (bed : file) (n : value) (k : Z) (g : rng) :
  int n = Ok k -> k <= 0 ->
  bed_sample_lines bed n g
  = Ok ([], mkRng (tape g) (pos g + List.length bed)) /\
  bed_sample bed n g
  = Ok ("", mkRng (tape g) (pos g + List.length bed)).
Proof.
  intros Hk Hle.
  destruct (bed_sample_indices bed n k g Hk)
    as (idxs & g' & Hrun & _ & _ & H3 & H4 & H5 & _).
  assert (E : bed_sample_lines bed n g
              = Ok ([], mkRng (tape g) (pos g + List.length bed))).
  { rewrite Hrun.
    destruct idxs as [|j idxs]; [|simpl in H3; unfold len in H3; lia].
    destruct g' as [t p]. simpl in H4, H5. subst t p.
    unfold draws. simpl map. do 3 f_equal. lia. }
  split; [exact E|]. exact (bed_sample_text _ _ _ _ _ E).
Qed.

(** *** [zclude] *)

(** C9.  Without a mask, in either mode, [zclude] returns its input as it
    is and writes no diagnostic. *)
Theorem zclude_no_mask (intersect_v intersect_u : file -> file -> file)
  (bed : file) (exclude : bool) :
  zclude intersect_v intersect_u bed None exclude = Ok (bed, []).
Proof. reflexivity. Qed.

(** C10.  With a mask, in either mode, [zclude] on an empty file raises
    [ZeroDivisionError] when it computes the percentage, whatever
    [bedtools] returns; on a file that is not empty it returns the
    filtered file with one diagnostic. *)
Theorem zclude_empty_fails (intersect_v intersect_u : file -> file -> file)
  (other : file) (exclude : bool) :
  zclude intersect_v intersect_u [] (Some other) exclude
    = Raise ZeroDivisionError /\
  (forall bed, bed <> [] ->
     exists d,
       zclude intersect_v intersect_u bed (Some other) exclude
       = Ok (if exclude then intersect_v bed other
             else intersect_u bed other, [d])).
Proof.
  split; [reflexivity|].
  intros bed Hne. unfold zclude, truediv.
  assert (Hlen : (len bed =? 0) = false).
  { apply Z.eqb_neq. unfold len. destruct bed; [congruence|simpl; lia]. }
  rewrite Hlen. simpl. eauto.
Qed.

(** *** The summary *)

Lemma fold_add_acc l : forall a, fold_left Z.add l a = a + fold_left Z.add l 0.
Proof.
  induction l as [|x t IH]; intros a; simpl; [lia|].
  rewrite (IH (a + x)), (IH x). lia.
Qed.

Lemma sum_cons x l : sum (x :: l) = x + sum l.
Proof. unfold sum. simpl. apply fold_add_acc. Qed.

Lemma count_ge_cons o s l :
  count_ge o (s :: l) = (if s >=? o then 1 else 0) + count_ge o l.
Proof. unfold count_ge. simpl map. apply sum_cons. Qed.

(** The count is the number of simulated values at or above the observed
    one. *)
Lemma count_ge_filter o l :
  count_ge o l = len (filter (fun s => o <=? s) l).
Proof.
  induction l as [|s t IH]; [reflexivity|].
  rewrite count_ge_cons, IH. simpl filter. unfold len.
  rewrite Z.geb_leb. destruct (o <=? s); simpl List.length; lia.
Qed.

Lemma count_ge_bounds o l : 0 <= count_ge o l <= len l.
Proof.
  induction l as [|s t IH]; [unfold count_ge, sum, len; simpl; lia|].
  rewrite count_ge_cons. unfold len in *. simpl List.length.
  destruct (s >=? o); lia.
Qed.

Lemma count_ge_all o l :
  Forall (fun s => o <= s) l -> count_ge o l = len l.
Proof.
  induction 1 as [|s t Hs _ IH]; [reflexivity|].
  rewrite count_ge_cons, IH. unfold len. simpl List.length.
  rewrite Z.geb_leb. destruct (Z.leb_spec o s); lia.
Qed.

Lemma count_ge_pos o l :
  0 < count_ge o l <-> Exists (fun s => o <= s) l.
Proof.
  induction l as [|s t IH].
  - unfold count_ge, sum. simpl. split; [lia|intros H; inversion H].
  - rewrite count_ge_cons, Z.geb_leb. pose proof (count_ge_bounds o t).
    destruct (Z.leb_spec o s); split; intros H'.
    + now left.
    + lia.
    + right. apply IH. lia.
    + inversion H' as [? ? Hs|? ? Ht]; subst; [lia|]. apply IH in Ht. lia.
Qed.

Lemma summarize_Ok o l r :
  summarize o l = Ok r ->
  l <> [] /\
  r = mkReport o l (inject_Z (sum l) / inject_Z (len l))
                   (inject_Z (count_ge o l) / inject_Z (len l)).
Proof.
  unfold summarize, truediv. destruct (Z.eqb_spec (len l) 0) as [E|E];
    [discriminate|].
  simpl. intros [= <-]. split; [|reflexivity].
  intros ->. apply E. reflexivity.
Qed.

Lemma summarize_total o l :
  l <> [] -> exists r, summarize o l = Ok r.
Proof.
  intros H. unfold summarize, truediv.
  destruct (Z.eqb_spec (len l) 0) as [E|E]; [|simpl; eauto].
  destruct l; [congruence|]. unfold len in E. simpl in E. lia.
Qed.

Lemma summarize_Raise o l e :
  summarize o l = Raise e -> e = ZeroDivisionError /\ l = [].
Proof.
  unfold summarize, truediv. destruct (Z.eqb_spec (len l) 0) as [E|E];
    [|discriminate].
  simpl. intros [= <-]. split; [reflexivity|].
  destruct l; [reflexivity|]. unfold len in E. simpl in E. lia.
Qed.

Lemma len_pos {A} (l : list A) : l <> [] -> 0 < len l.
Proof. destruct l; [congruence|]. unfold len. simpl. lia. Qed.

Lemma ratio_bounds c n :
  0 <= c <= n -> 0 < n ->
  (0 <= inject_Z c / inject_Z n)%Q /\ (inject_Z c / inject_Z n <= 1)%Q.
Proof.
  intros Hc Hn.
  assert (Hq : (inject_Z 0 < inject_Z n)%Q) by (rewrite <- Zlt_Qlt; exact Hn).
  split.
  - apply Qle_shift_div_l; [exact Hq|]. rewrite Qmult_0_l.
    change (inject_Z 0 <= inject_Z c)%Q. rewrite <- Zle_Qle. lia.
  - apply Qle_shift_div_r; [exact Hq|]. rewrite Qmult_1_l.
    rewrite <- Zle_Qle. lia.
Qed.

Lemma ratio_one n : 0 < n -> (inject_Z n / inject_Z n == 1)%Q.
Proof.
  intros Hn. apply Qmult_inv_r. intros E.
  assert (H : (inject_Z n == inject_Z 0)%Q) by exact E.
  rewrite inject_Z_injective in H. lia.
Qed.

Lemma ratio_floor c n :
  0 < n -> 0 < c -> (1 / inject_Z n <= inject_Z c / inject_Z n)%Q.
Proof.
  intros Hn Hc.
  assert (Hq : (inject_Z 0 < inject_Z n)%Q) by (rewrite <- Zlt_Qlt; exact Hn).
  apply Qle_shift_div_l; [exact Hq|].
  unfold Qdiv. rewrite <- Qmult_assoc, (Qmult_comm (/ inject_Z n)).
  rewrite Qmult_inv_r, Qmult_1_r.
  - change (inject_Z 1 <= inject_Z c)%Q. rewrite <- Zle_Qle. lia.
  - intros E. assert (H : (inject_Z n == inject_Z 0)%Q) by exact E.
    rewrite inject_Z_injective in H. lia.
Qed.

Lemma ratio_zero n : (inject_Z 0 / inject_Z n == 0)%Q.
Proof. unfold Qdiv. apply Qmult_0_l. Qed.

(** *** [poverlap] and [fixle]: the simulated counts and the summary *)

(** Inversion of a successful [bind]: the first computation returned. *)
Ltac inv_bind H x Hx :=
  apply bind_Ok in H; destruct H as (x & Hx & H).

(** The summary as a function of the observed count and of the simulated
    counts. *)
Lemma summarize_eq o l :
  l <> [] ->
  summarize o l
  = Ok (mkReport o l
          (inject_Z (sum l) / inject_Z (len l))
          (inject_Z (len (filter (fun s => o <=? s) l)) / inject_Z (len l))).
Proof.
  intros Hne. destruct (summarize_total o l Hne) as (r & Hr).
  rewrite Hr. apply summarize_Ok in Hr. destruct Hr as (_ & ->).
  now rewrite count_ge_filter.
Qed.

(** A run of [poverlap] that reports: the stages before the trials
    succeeded, and the report is the summary of the trials' counts. *)
Lemma poverlap_Ok iv iu sh a b genome n chrom exclude include both od sd
  seeds r diag :
  poverlap iv iu sh a b genome n chrom exclude include both od sd seeds
  = Ok (r, diag) ->
  exists t a3 b3 sd',
    poverlap_setup iv iu a b genome n exclude include od sd
    = Ok (t, a3, b3, sd', diag) /\
    summarize (overlaps iu a3 b3)
      (map (fun i => poverlap_round iu sh a3 b3 genome exclude include chrom
                       both sd' (fst (seeds i)) (snd (seeds i)))
           (seq 0 (Z.to_nat t)))
    = Ok r.
Proof.
  unfold poverlap. intros H.
  inv_bind H st Hst. destruct st as [[[[t a3] b3] sd'] stderr].
  inv_bind H r' Hr. injection H as <- <-.
  exists t, a3, b3, sd'. split; [exact Hst|exact Hr].
Qed.

(** The stages of [poverlap] before the trials, one by one. *)
Lemma poverlap_setup_Ok iv iu a b genome n exclude include od sd
  t a3 b3 sd' diag :
  poverlap_setup iv iu a b genome n exclude include od sd
  = Ok (t, a3, b3, sd', diag) ->
  int n = Ok t /\
  exists a1 e1 a2 e2 b1 e3 b2 e4,
    zclude iv iu a exclude true = Ok (a1, e1) /\
    zclude iv iu a1 include false = Ok (a2, e2) /\
    zclude iv iu b exclude true = Ok (b1, e3) /\
    zclude iv iu b1 include false = Ok (b2, e4) /\
    (if od =? 0 then Ok a2 else extend_bed a2 od) = Ok a3 /\
    (if od =? 0 then Ok b2 else extend_bed b2 od) = Ok b3 /\
    diag = (e1 ++ e2 ++ e3 ++ e4)%list.
Proof.
  unfold poverlap_setup. intros H.
  inv_bind H t' Ht.
  inv_bind H u Hu. clear u Hu.
  inv_bind H za1 Ha1. destruct za1 as [a1 e1].
  inv_bind H za2 Ha2. destruct za2 as [a2 e2].
  inv_bind H zb1 Hb1. destruct zb1 as [b1 e3].
  inv_bind H zb2 Hb2. destruct zb2 as [b2 e4].
  inv_bind H ext Hext. destruct ext as [a3' b3'].
  inv_bind H sd'' Hsd.
  injection H as <- <- <- <- <-.
  split; [exact Ht|].
  exists a1, e1, a2, e2, b1, e3, b2, e4.
  refine (conj Ha1 (conj Ha2 (conj Hb1 (conj Hb2 _)))).
  destruct (od =? 0); cbn [negb] in Hext.
  - injection Hext as <- <-. now repeat split.
  - inv_bind Hext a' Ha'. inv_bind Hext b' Hb'. injection Hext as <- <-.
    now repeat split.
Qed.

(** A run of [fixle] that reports: the rows were split, some row is to
    be swapped, and the report is the summary of the trials' counts. *)
Lemma fixle_Ok iu bed atype btype type_col n seeds r :
  fixle iu bed atype btype type_col n seeds = Ok r ->
  exists a other b nb,
    fixle_rows atype btype (type_col - 1) bed [] [] [] 0
    = Ok (a, other, b, nb) /\
    0 < nb /\
    summarize (overlaps iu a b)
      (map (fun i => fixle_round iu a other nb (seeds i))
           (seq 0 (Z.to_nat n)))
    = Ok r.
Proof.
  unfold fixle. intros H.
  inv_bind H rows Hrows. destruct rows as [[[a other] b] nb].
  inv_bind H u Hu. exists a, other, b, nb.
  split; [exact Hrows|]. split; [|exact H].
  unfold assert in Hu. destruct (Z.gtb_spec nb 0); [lia|discriminate].
Qed.

Lemma map_seq_nil {A} (f : nat -> A) k : map f (seq 0 k) = [] -> k = 0%nat.
Proof. destruct k; [reflexivity|discriminate]. Qed.

(** C4.  The aggregation is a function of the observed count and of the
    simulated counts: the mean is their sum over their number and the
    p-value the number of counts [s] with [s >= observed] over their
    number, so that a tie counts, and the p-value is 1 when every count
    equals the observed one.  The report of a run of [poverlap], and of
    a run of [fixle], is this aggregation of the counts of its rounds,
    one per trial, and of the number of overlaps observed between the
    two files. *)
Theorem pvalue_counts_ties :
  (forall (o : Z) (l : list Z), l <> [] ->
     summarize o l
     = Ok (mkReport o l
             (inject_Z (sum l) / inject_Z (len l))
             (inject_Z (len (filter (fun s => o <=? s) l))
              / inject_Z (len l))) /\
     (Forall (fun s => s = o) l ->
      (inject_Z (len (filter (fun s => o <=? s) l)) / inject_Z (len l)
       == 1)%Q)) /\
  (forall iv iu sh a b genome n chrom exclude include both od sd seeds r diag,
     poverlap iv iu sh a b genome n chrom exclude include both od sd seeds
     = Ok (r, diag) ->
     exists trials a3 b3 sd',
       poverlap_setup iv iu a b genome n exclude include od sd
       = Ok (trials, a3, b3, sd', diag) /\
       0 < trials /\
       let counts :=
         map (fun i => poverlap_round iu sh a3 b3 genome exclude include
                         chrom both sd' (fst (seeds i)) (snd (seeds i)))
             (seq 0 (Z.to_nat trials)) in
       len counts = trials /\
       r = mkReport (overlaps iu a3 b3) counts
             (inject_Z (sum counts) / inject_Z trials)
             (inject_Z (len (filter (fun s => overlaps iu a3 b3 <=? s) counts))
              / inject_Z trials)) /\
  (forall iu bed atype btype type_col n seeds r,
     fixle iu bed atype btype type_col n seeds = Ok r ->
     exists a other b n_btypes,
       fixle_rows atype btype (type_col - 1) bed [] [] [] 0
       = Ok (a, other, b, n_btypes) /\
       0 < n /\
       let counts :=
         map (fun i => fixle_round iu a other n_btypes (seeds i))
             (seq 0 (Z.to_nat n)) in
       len counts = n /\
       r = mkReport (overlaps iu a b) counts
             (inject_Z (sum counts) / inject_Z n)
             (inject_Z (len (filter (fun s => overlaps iu a b <=? s) counts))
              / inject_Z n)).
Proof.
  split; [|split].
  - intros o l Hne. split; [now apply summarize_eq|].
    intros Hall. rewrite <- count_ge_filter, count_ge_all.
    + apply ratio_one. now apply len_pos.
    + eapply Forall_impl; [|exact Hall]. simpl. intros; lia.
  - intros iv iu sh a b genome n chrom exclude include both od sd seeds r
      diag H.
    apply poverlap_Ok in H. destruct H as (t & a3 & b3 & sd' & Hst & Hs).
    exists t, a3, b3, sd'. split; [exact Hst|].
    pose proof (summarize_Ok _ _ _ Hs) as (Hne & _).
    assert (Ht : 0 < t).
    { destruct (Z.ltb_spec 0 t) as [|Hle]; [assumption|]. exfalso.
      apply Hne. now replace (Z.to_nat t) with 0%nat by lia. }
    split; [exact Ht|]. cbv zeta.
    set (counts := map _ _) in *.
    assert (Hlen : len counts = t).
    { unfold len, counts. rewrite length_map, length_seq. lia. }
    split; [exact Hlen|].
    rewrite (summarize_eq _ _ Hne) in Hs. injection Hs as <-.
    now rewrite Hlen.
  - intros iu bed atype btype type_col n seeds r H.
    apply fixle_Ok in H. destruct H as (a & other & b & nb & Hrows & _ & Hs).
    exists a, other, b, nb. split; [exact Hrows|].
    pose proof (summarize_Ok _ _ _ Hs) as (Hne & _).
    assert (Hn : 0 < n).
    { destruct (Z.ltb_spec 0 n) as [|Hle]; [assumption|]. exfalso.
      apply Hne. now replace (Z.to_nat n) with 0%nat by lia. }
    split; [exact Hn|]. cbv zeta.
    set (counts := map _ _) in *.
    assert (Hlen : len counts = n).
    { unfold len, counts. rewrite length_map, length_seq. lia. }
    split; [exact Hlen|].
    rewrite (summarize_eq _ _ Hne) in Hs. injection Hs as <-.
    now rewrite Hlen.
Qed.

(** C5, as the code has it.  A run of [poverlap] that reports has
    [trials >= 1] simulated counts, exactly [trials] of them: the counts
    of its rounds, one per trial.  Its p-value is the number of those
    that reach the observed count over [trials]; it lies in [[0, 1]], is
    at least [1 / trials] when some simulated count reaches the observed
    one, and is 0 otherwise, whatever the observed count. *)
Theorem pvalue_range iv iu sh a b genome n chrom exclude include both od sd
  seeds r diag trials :
  poverlap iv iu sh a b genome n chrom exclude include both od sd seeds
  = Ok (r, diag) ->
  int n = Ok trials ->
  1 <= trials /\ len (sims r) = trials /\
  (exists a3 b3 sd',
     poverlap_setup iv iu a b genome n exclude include od sd
     = Ok (trials, a3, b3, sd', diag) /\
     observed r = overlaps iu a3 b3 /\
     sims r = map (fun i => poverlap_round iu sh a3 b3 genome exclude include
                              chrom both sd' (fst (seeds i)) (snd (seeds i)))
                  (seq 0 (Z.to_nat trials))) /\
  pvalue r = (inject_Z (len (filter (fun s => observed r <=? s) (sims r)))
              / inject_Z trials)%Q /\
  (0 <= pvalue r)%Q /\ (pvalue r <= 1)%Q /\
  (Exists (fun s => observed r <= s) (sims r) ->
   (1 / inject_Z trials <= pvalue r)%Q) /\
  (~ Exists (fun s => observed r <= s) (sims r) -> (pvalue r == 0)%Q).
Proof.
  intros H Hn. apply poverlap_Ok in H.
  destruct H as (t & a3 & b3 & sd' & Hst & Hs).
  pose proof (poverlap_setup_Ok _ _ _ _ _ _ _ _ _ _ _ _ _ _ _ Hst) as (Ht & _).
  rewrite Hn in Ht. injection Ht as <-.
  pose proof (summarize_Ok _ _ _ Hs) as (Hne & Hr).
  pose proof (len_pos _ Hne) as Hpos.
  set (counts := map _ _) in *.
  assert (Hl : len counts = trials).
  { unfold len, counts in *. rewrite length_map, length_seq in *. lia. }
  pose proof (count_ge_bounds (overlaps iu a3 b3) counts) as Hc.
  pose proof (count_ge_pos (overlaps iu a3 b3) counts) as Hex.
  subst r. cbn [observed sims pvalue].
  rewrite Hl in *.
  destruct (ratio_bounds _ _ Hc Hpos) as (H0 & H1).
  split; [lia|]. split; [reflexivity|].
  split; [exists a3, b3, sd'; now repeat split|].
  split; [now rewrite count_ge_filter|].
  split; [exact H0|]. split; [exact H1|]. split.
  - intros He. apply ratio_floor; [lia|]. apply Hex. exact He.
  - intros He. assert (E : count_ge (overlaps iu a3 b3) counts = 0).
    { destruct (Z.eq_dec (count_ge (overlaps iu a3 b3) counts) 0) as [E|E];
        [exact E|]. exfalso. apply He, Hex. lia. }
    rewrite E. apply ratio_zero.
Qed.

(** *** [fixle] *)

Lemma has_label_Ok tc l lab x :
  label tc l = Ok lab -> has_label tc x l = String.eqb lab x.
Proof. unfold has_label. now intros ->. Qed.

Lemma fixle_rows_labelled atype btype tc bed : forall afh ofh bfh nb,
  forallb (labelled tc) bed = true ->
  let is_a := has_label tc atype in
  let is_b := fun l => negb (is_a l) && has_label tc btype l in
  fixle_rows atype btype tc bed afh ofh bfh nb
  = Ok (afh ++ map reprint (filter is_a bed),
        ofh ++ map reprint (filter (fun l => negb (is_a l)) bed),
        bfh ++ map reprint (filter is_b bed),
        nb + len (filter is_b bed))%list.
Proof.
  induction bed as [|l rest IH]; intros afh ofh bfh nb Hlab is_a is_b.
  - simpl. rewrite !app_nil_r. unfold len. simpl. now rewrite Z.add_0_r.
  - simpl in Hlab. apply andb_prop in Hlab. destruct Hlab as [Hl Hrest].
    unfold labelled in Hl. destruct (label tc l) as [lab|e] eqn:E;
      [|discriminate].
    change (fixle_rows atype btype tc (l :: rest) afh ofh bfh nb) with
      (lab <- label tc l ;;
       if String.eqb lab atype
       then fixle_rows atype btype tc rest
              (afh ++ [reprint l])%list ofh bfh nb
       else if String.eqb lab btype
            then fixle_rows atype btype tc rest afh (ofh ++ [reprint l])%list
                   (bfh ++ [reprint l])%list (nb + 1)
            else fixle_rows atype btype tc rest afh (ofh ++ [reprint l])%list
                   bfh nb).
    rewrite E. simpl bind. subst is_a is_b. simpl filter.
    rewrite (has_label_Ok tc l lab atype E), (has_label_Ok tc l lab btype E).
    destruct (String.eqb lab atype); [|destruct (String.eqb lab btype)];
      rewrite (IH _ _ _ _ Hrest); simpl negb; simpl andb; cbv iota;
      simpl map; rewrite <- ?app_assoc; simpl app; try reflexivity.
    unfold len. simpl List.length. do 2 f_equal. lia.
Qed.

Lemma fixle_rows_Raise atype btype tc bed : forall afh ofh bfh nb,
  forallb (labelled tc) bed = false ->
  fixle_rows atype btype tc bed afh ofh bfh nb = Raise IndexError.
Proof.
  induction bed as [|l rest IH]; intros afh ofh bfh nb Hlab;
    [discriminate|].
  simpl in Hlab. simpl fixle_rows. unfold labelled, label in Hlab.
  destruct (getitem (tokens l) tc) as [lab|e] eqn:E.
  - simpl in Hlab. simpl bind.
    destruct (String.eqb lab atype); [now apply IH|].
    destruct (String.eqb lab btype); now apply IH.
  - simpl bind. f_equal. unfold getitem in E.
    repeat match type of E with
    | context [if ?c then _ else _] => destruct c
    | context [match ?x with _ => _ end] => destruct x
    end; congruence.
Qed.

(** A row without the label column stops [fixle] before its assertion. *)
Lemma fixle_unlabelled iu bed atype btype type_col n seeds :
  forallb (labelled (type_col - 1)) bed = false ->
  fixle iu bed atype btype type_col n seeds = Raise IndexError.
Proof.
  intros H. unfold fixle. now rewrite fixle_rows_Raise.
Qed.

Lemma filter_and_length {A} (p q : A -> bool) l :
  (List.length (filter (fun x => p x && q x) l)
   <= List.length (filter p l))%nat.
Proof.
  induction l as [|x t IH]; [simpl; lia|]. simpl.
  destruct (p x), (q x); simpl; lia.
Qed.

(** One round of [fixle], from the reservoir of the sampling process. *)
Lemma fixle_round_lines iu a other nb g lines g' :
  bed_sample_lines other (PStr (str nb)) g = Ok (lines, g') ->
  lines <> [] ->
  Forall (fun l => exists body, l = body ++ String LF EmptyString) lines ->
  fixle_round iu a other nb g
  = overlaps iu a (readlines (String.concat "" lines)).
Proof.
  intros H Hne Hall. unfold fixle_round.
  now rewrite (bed_sample_stdout_text _ _ _ _ _ H Hne Hall).
Qed.

Lemma Forall_nth {A} (P : A -> Prop) (l : list A) d idxs :
  Forall P l -> Forall (fun j => (j < List.length l)%nat) idxs ->
  Forall P (map (fun j => nth j l d) idxs).
Proof.
  intros Hp Hlt. apply Forall_forall. intros x Hx.
  apply in_map_iff in Hx. destruct Hx as (j & <- & Hj).
  rewrite Forall_forall in Hlt, Hp. apply Hp, nth_In, Hlt, Hj.
Qed.

Lemma forallb_nth {A} (p : A -> bool) (l : list A) d idxs :
  forallb p l = true -> Forall (fun j => (j < List.length l)%nat) idxs ->
  forallb p (map (fun j => nth j l d) idxs) = true.
Proof.
  intros Hp Hlt. apply forallb_forall. intros x Hx.
  apply in_map_iff in Hx. destruct Hx as (j & <- & Hj).
  rewrite Forall_forall in Hlt. rewrite forallb_forall in Hp.
  apply Hp, nth_In, Hlt, Hj.
Qed.

(** C6.  On a file whose rows all have the label column, [fixle] fails
    its assertion, with the message and [btype], exactly when no row
    outside those labelled [atype] is labelled [btype].  Otherwise every
    round samples as many records as there are such rows from the pool of
    all the rows not labelled [atype]: the sampling process prints the
    pool rows at pairwise distinct positions, the slot [j] holding the
    last row whose draw from the random source of the round was [j], or
    the row [j] when there was none; the count of the round is the number
    of overlaps of the unchanged [atype] rows with the lines of that
    text, which are the sampled rows when the lines of the file hold no
    newline but their last character.  With [n >= 1] rounds [fixle]
    reports the aggregation of the counts of the rounds. *)
Theorem fixle_swap_label (iu : file -> file -> file) (bed : file)
  (atype btype : string) (type_col n : Z) (seeds : nat -> rng) :
  let tc := type_col - 1 in
  let is_a := has_label tc atype in
  let is_b := fun l => negb (is_a l) && has_label tc btype l in
  let a := map reprint (filter is_a bed) in
  let other := map reprint (filter (fun l => negb (is_a l)) bed) in
  let b := map reprint (filter is_b bed) in
  let n_btypes := len (filter is_b bed) in
  let counts := map (fun i => fixle_round iu a other n_btypes (seeds i))
                    (seq 0 (Z.to_nat n)) in
  forallb (labelled tc) bed = true ->
  (fixle iu bed atype btype type_col n seeds
   = Raise (AssertionError ["no intervals found for"; btype])
   <-> n_btypes = 0) /\
  (0 < n_btypes ->
   (forall g, exists idxs g',
      bed_sample other (PStr (str n_btypes)) g
      = Ok (String.concat "" (map (fun j => nth j other "") idxs), g') /\
      len idxs = n_btypes /\
      NoDup idxs /\ Forall (fun j => (j < List.length other)%nat) idxs /\
      (forall j i, nth_error idxs j = Some i ->
                   slot_holds n_btypes g (List.length other) j i) /\
      fixle_round iu a other n_btypes g
      = overlaps iu a
          (readlines
             (String.concat "" (map (fun j => nth j other "") idxs))) /\
      (forallb is_line bed = true ->
       readlines (String.concat "" (map (fun j => nth j other "") idxs))
       = map (fun j => nth j other "") idxs)) /\
   (0 < n ->
    fixle iu bed atype btype type_col n seeds
    = Ok (mkReport (overlaps iu a b) counts
            (inject_Z (sum counts) / inject_Z n)
            (inject_Z (len (filter (fun s => overlaps iu a b <=? s) counts))
             / inject_Z n)))).
Proof.
  intros tc is_a is_b a other b n_btypes counts Hlab.
  assert (Hfix : fixle iu bed atype btype type_col n seeds =
    (_ <- assert (n_btypes >? 0) ["no intervals found for"; btype] ;;
     summarize (overlaps iu a b) counts)).
  { unfold fixle. fold tc.
    rewrite (fixle_rows_labelled atype btype tc bed [] [] [] 0 Hlab).
    reflexivity. }
  assert (Hnb : 0 <= n_btypes) by (unfold n_btypes, len; lia).
  split; [split|].
  - intros H. rewrite Hfix in H. unfold assert in H.
    destruct (Z.gtb_spec n_btypes 0) as [Hgt|Hle]; [|lia].
    simpl bind in H. apply summarize_Raise in H. destruct H; discriminate.
  - intros H0. rewrite Hfix, H0. reflexivity.
  - intros Hpos. split.
    + intros g.
      destruct (bed_sample_indices other (PStr (str n_btypes))
                  n_btypes g (int_of_string_str _))
        as (idxs & g' & Hrun & Hnd & Hlt & Hlen & _ & _ & Hslots).
      exists idxs, g'.
      split; [exact (bed_sample_text _ _ _ _ _ Hrun)|].
      assert (Hsize : len idxs = n_btypes).
      { pose proof (filter_and_length (fun l => negb (is_a l))
                      (has_label tc btype) bed) as Hle.
        unfold len. rewrite Hlen. unfold other, len.
        rewrite length_map. unfold n_btypes, len, is_b in *. lia. }
      split; [exact Hsize|].
      split; [exact Hnd|]. split; [exact Hlt|]. split; [exact Hslots|].
      split.
      { apply (fixle_round_lines iu a other n_btypes g _ _ Hrun).
        - intros E. apply map_eq_nil in E. subst idxs.
          unfold len in Hsize. simpl in Hsize. lia.
        - apply Forall_nth; [|exact Hlt]. unfold other.
          apply Forall_forall. intros x Hx.
          apply in_map_iff in Hx. destruct Hx as (l & <- & _).
          now exists (join TAB (tokens l)). }
      intros Hlines. apply readlines_concat.
      apply forallb_nth; [|exact Hlt].
      apply forallb_forall. intros x Hx. unfold other in Hx.
      apply in_map_iff in Hx. destruct Hx as (l & <- & Hl).
      apply filter_In in Hl. destruct Hl as (Hl & _).
      apply terminated_reprint.
      rewrite forallb_forall in Hlines. now apply Hlines.
    + intros Hn. rewrite Hfix. unfold assert.
      destruct (Z.gtb_spec n_btypes 0) as [Hgt|Hle]; [|lia].
      simpl bind.
      assert (Hlen : len counts = n).
      { unfold len, counts. rewrite length_map, length_seq. lia. }
      assert (Hne : counts <> []).
      { intros E. rewrite E in Hlen. unfold len in Hlen. simpl in Hlen. lia. }
      rewrite (summarize_eq _ _ Hne). now rewrite Hlen.
Qed.

(* ===================================================================== *)
(** ** Further properties of the script *)
(* ===================================================================== *)

(** *** [extend_bed] *)

Lemma extend_line_record h l c s e rest v1 v2 :
  tokens l = c :: s :: e :: rest ->
  int_of_string s = Ok v1 -> int_of_string e = Ok v2 ->
  extend_line h l =
    Ok (print_row
          (c :: str (if Z.max 0 (v1 - h) >? Z.max 0 (v2 + h)
                     then (Z.max 0 (v1 - h) + Z.max 0 (v2 + h)) / 2
                     else Z.max 0 (v1 - h))
             :: str (if Z.max 0 (v1 - h) >? Z.max 0 (v2 + h)
                     then (Z.max 0 (v1 - h) + Z.max 0 (v2 + h)) / 2
                     else Z.max 0 (v2 + h)) :: rest)).
Proof.
  intros El Hs He. unfold extend_line.
  rewrite El, extend_toks_row, Hs, He. reflexivity.
Qed.

Lemma is_record_of_fields l v1 v2 :
  row_start l = Ok v1 -> row_end l = Ok v2 -> is_record l = true.
Proof. unfold is_record. now intros -> ->. Qed.

(** X1.  [extend_bed] returns a file exactly when every line of the input
    has the three fields of a record, with an integer start and an
    integer end: a comment line, a header or a short row makes it raise. *)
Theorem extend_bed_succeeds_iff (fin : file) (bases : Z) :
  (exists fout, extend_bed fin bases = Ok fout)
  <-> forallb is_record fin = true.
Proof.
  split.
  - intros (fout & H). unfold extend_bed in H. apply mapM_Ok in H.
    apply forallb_forall. intros l Hl.
    destruct (In_nth_error _ _ Hl) as (i & Hi).
    destruct (Forall2_nth_error_l _ _ _ _ _ H Hi) as (l' & _ & Hx).
    apply extend_line_Ok in Hx. destruct Hx as (v1 & v2 & H1 & H2 & _).
    eapply is_record_of_fields; eauto.
  - intros H. unfold extend_bed. apply mapM_total.
    rewrite forallb_forall in H. apply Forall_forall.
    intros l Hl. apply extend_line_total. auto.
Qed.

(** X2.  The width is halved with an integer division, so an odd width
    extends like the even width below it: [2 k + 1] bases give [k] on each
    side, as [2 k] do. *)
Theorem extend_bed_odd (fin : file) (k : Z) :
  extend_bed fin (2 * k + 1) = extend_bed fin (2 * k).
Proof.
  unfold extend_bed.
  replace ((2 * k + 1) / 2) with k
    by (apply (Z.div_unique (2 * k + 1) 2 k 1); lia).
  replace (2 * k / 2) with k
    by (apply (Z.div_unique (2 * k) 2 k 0); lia).
  reflexivity.
Qed.

Lemma is_interval_fields l :
  is_interval l = true ->
  exists c s e rest v1 v2,
    tokens l = c :: s :: e :: rest /\
    int_of_string s = Ok v1 /\ int_of_string e = Ok v2 /\
    v1 <= v2 /\ 0 <= v2.
Proof.
  unfold is_interval.
  destruct (row_start l) as [v1|] eqn:H1; [|discriminate].
  destruct (row_end l) as [v2|] eqn:H2; [|discriminate].
  intros H. apply andb_prop in H. destruct H as [Hle Hpos].
  apply Z.leb_le in Hle. apply Z.leb_le in Hpos.
  destruct (row_fields l v1 v2 H1 H2) as (c & s & e & rest & El & Hs & He).
  exists c, s, e, rest, v1, v2. auto.
Qed.

Lemma extend_line_twice ha hb l :
  0 <= ha -> 0 <= hb -> is_interval l = true ->
  exists l1,
    extend_line ha l = Ok l1 /\ is_interval l1 = true /\
    extend_line hb l1 = extend_line (ha + hb) l.
Proof.
  intros Ha Hb Hl.
  destruct (is_interval_fields l Hl)
    as (c & s & e & rest & v1 & v2 & El & Hs & He & Hle & Hpos).
  rewrite (extend_line_record ha l c s e rest v1 v2 El Hs He).
  destruct (Z.gtb_spec (Z.max 0 (v1 - ha)) (Z.max 0 (v2 + ha))) as [Hgt|_];
    [lia|].
  eexists. split; [reflexivity|].
  assert (Hok : row_ok (c :: str (Z.max 0 (v1 - ha))
                          :: str (Z.max 0 (v2 + ha)) :: rest)).
  { eapply row_ok_locs. rewrite <- El. apply tokens_row_ok. }
  pose proof (tokens_print_row _ Hok) as Ht.
  split.
  - unfold is_interval, row_start, row_end. rewrite Ht.
    rewrite getitem_1, getitem_2. cbn [bind].
    rewrite !int_of_string_str.
    apply andb_true_intro. split; apply Z.leb_le; lia.
  - rewrite (extend_line_record hb _ _ _ _ _ _ _ Ht
               (int_of_string_str _) (int_of_string_str _)).
    rewrite (extend_line_record (ha + hb) l c s e rest v1 v2 El Hs He).
    replace (Z.max 0 (Z.max 0 (v1 - ha) - hb))
      with (Z.max 0 (v1 - (ha + hb))) by lia.
    replace (Z.max 0 (Z.max 0 (v2 + ha) + hb))
      with (Z.max 0 (v2 + (ha + hb))) by lia.
    reflexivity.
Qed.

Lemma extend_lines_twice ha hb fin :
  0 <= ha -> 0 <= hb -> forallb is_interval fin = true ->
  (out <- mapM (extend_line ha) fin ;; mapM (extend_line hb) out)
  = mapM (extend_line (ha + hb)) fin.
Proof.
  intros Ha Hb. induction fin as [|l rest IH]; intros H; [reflexivity|].
  simpl in H. apply andb_prop in H. destruct H as [Hl Hrest].
  specialize (IH Hrest).
  destruct (extend_line_twice ha hb l Ha Hb Hl) as (l1 & H1 & _ & H2).
  simpl mapM. rewrite H1. cbn [bind].
  destruct (mapM_total (extend_line ha) rest) as (out & Hout).
  { apply Forall_forall. intros x Hx. rewrite forallb_forall in Hrest.
    destruct (extend_line_twice ha hb x Ha Hb (Hrest x Hx)) as (x1 & Hx1 & _).
    eauto. }
  rewrite Hout in *. cbn [bind] in *. simpl mapM. now rewrite H2, IH.
Qed.

(** X3.  On records with [start <= end] and [end >= 0], extending by [a]
    and then by [b] bases, both non-negative and [a] even, writes the same
    file as extending once by [a + b]: the clamp of the start at 0 does
    not get in the way. *)
Theorem extend_bed_twice (fin : file) (a b : Z) :
  0 <= a -> 0 <= b -> Z.even a = true ->
  forallb is_interval fin = true ->
  (out <- extend_bed fin a ;; extend_bed out b) = extend_bed fin (a + b).
Proof.
  intros Ha Hb Heven Hfin. unfold extend_bed.
  assert (Hdiv : (a + b) / 2 = a / 2 + b / 2).
  { apply Z.even_spec in Heven. destruct Heven as (k & ->).
    rewrite (Z.mul_comm 2 k), Z.div_add_l, Z.div_mul by lia. reflexivity. }
  rewrite Hdiv. apply extend_lines_twice; auto; apply Z.div_pos; lia.
Qed.

(** *** [distance_shuffle] *)

Lemma int_Raise v e : int v = Raise e -> e = ValueError.
Proof. destruct v; simpl; [discriminate|apply int_of_string_Raise]. Qed.

Lemma shift_locs_Ok_iff d locs :
  (exists out,
     mapM (fun loc => v <- int_of_string loc ;; Ok (str (Z.max 0 (v + d))))
          locs = Ok out)
  <-> forallb is_int locs = true.
Proof.
  induction locs as [|x t IH]; simpl.
  - split; eauto.
  - unfold is_int at 1. destruct (int_of_string x) as [v|e]; simpl.
    + rewrite <- IH. split.
      * intros (out & H). destruct (mapM _ t); [eauto|discriminate].
      * intros (out & ->). simpl. eauto.
    + split; [intros (out & H); discriminate|discriminate].
Qed.

Lemma shuffle_toks_Ok_iff d toks :
  (exists t, shuffle_toks d toks = Ok t)
  <-> forallb is_int (firstn 2 (skipn 1 toks)) = true.
Proof.
  rewrite <- (shift_locs_Ok_iff d). unfold shuffle_toks. split.
  - intros (t & H). apply bind_Ok in H. destruct H as (locs & H & _). eauto.
  - intros (locs & ->). simpl. eauto.
Qed.

Lemma shuffle_toks_Raise d toks e :
  shuffle_toks d toks = Raise e -> e = ValueError.
Proof.
  unfold shuffle_toks. intros H. apply bind_Raise in H.
  destruct H as [H|(locs & _ & H)]; [|discriminate].
  apply mapM_Raise in H. destruct H as (x & _ & H).
  apply bind_Raise in H. destruct H as [H|(v & _ & H)]; [|discriminate].
  eapply int_of_string_Raise; eauto.
Qed.

Lemma distance_shuffle_rows_Ok_iff dist bed : forall g,
  (exists out g', distance_shuffle_rows dist bed g = Ok (out, g'))
  <-> forallb shufflable bed = true.
Proof.
  induction bed as [|l rest IH]; intros g.
  - simpl. split; eauto.
  - cbn [forallb]. rewrite andb_true_iff.
    change (shufflable l = true)
      with (forallb is_int (firstn 2 (skipn 1 (tokens l))) = true).
    rewrite <- (shuffle_toks_Ok_iff (randval (- dist) dist (tape g (pos g)))).
    rewrite <- (IH (mkRng (tape g) (S (pos g)))).
    change (distance_shuffle_rows dist (l :: rest) g) with
      (toks' <- shuffle_toks (randval (- dist) dist (tape g (pos g)))
                             (tokens l) ;;
       '(out, g2) <- distance_shuffle_rows dist rest
                       (mkRng (tape g) (S (pos g))) ;;
       Ok (print_row toks' :: out, g2)).
    destruct (shuffle_toks _ (tokens l)) as [t|e]; cbn [bind].
    + split.
      * intros (out & g' & H).
        destruct (distance_shuffle_rows dist rest _) as [[o g2]|];
          [|discriminate].
        split; eauto.
      * intros (_ & out & g' & ->). cbn [bind]. eauto.
    + split; [intros (out & g' & H); discriminate|].
      intros ((t & H) & _). discriminate.
Qed.

Lemma distance_shuffle_rows_Raise dist bed : forall g e,
  distance_shuffle_rows dist bed g = Raise e -> e = ValueError.
Proof.
  induction bed as [|l rest IH]; intros g e H; simpl in H; [discriminate|].
  apply bind_Raise in H. destruct H as [H|(t & _ & H)].
  - eapply shuffle_toks_Raise; eauto.
  - apply bind_Raise in H. destruct H as [H|([o g2] & _ & H)];
      [eapply IH; eauto|discriminate].
Qed.

(** X4.  [distance_shuffle] returns exactly when [dist] is an integer and
    the fields of index 1 and 2 of every line, where the line has them,
    are integers; a line of one or two fields is accepted.  When it
    raises, the exception is a [ValueError], never an [IndexError]. *)
Theorem distance_shuffle_succeeds_iff (bed : file) (dist : value) (g : rng) :
  ((exists out g', distance_shuffle bed dist g = Ok (out, g'))
   <-> (exists D, int dist = Ok D) /\ forallb shufflable bed = true) /\
  (forall e, distance_shuffle bed dist g = Raise e -> e = ValueError).
Proof.
  unfold distance_shuffle. split; [split|].
  - intros (out & g' & H). apply bind_Ok in H. destruct H as (D & HD & H).
    split; [eauto|]. eapply distance_shuffle_rows_Ok_iff; eauto.
  - intros ((D & ->) & H). simpl. now apply distance_shuffle_rows_Ok_iff.
  - intros e H. apply bind_Raise in H. destruct H as [H|(D & _ & H)].
    + eapply int_Raise; eauto.
    + eapply distance_shuffle_rows_Raise; eauto.
Qed.

Lemma canonical_fields l :
  canonical l = true ->
  exists c s e rest v1 v2,
    tokens l = c :: s :: e :: rest /\
    int_of_string s = Ok v1 /\ int_of_string e = Ok v2 /\
    str v1 = s /\ str v2 = e /\ 0 <= v1 /\ 0 <= v2.
Proof.
  unfold canonical, row_start, row_end.
  destruct (tokens l) as [|c [|s [|e rest]]]; try discriminate.
  rewrite getitem_1, getitem_2. cbn [bind].
  destruct (int_of_string s) as [v1|] eqn:Hs; [|discriminate].
  destruct (int_of_string e) as [v2|] eqn:He; [|discriminate].
  intros H. rewrite !andb_true_iff in H. destruct H as (((A & B) & C) & D).
  apply String.eqb_eq in A. apply String.eqb_eq in B.
  apply Z.leb_le in C. apply Z.leb_le in D.
  exists c, s, e, rest, v1, v2.
  exact (conj eq_refl (conj Hs (conj He (conj A (conj B (conj C D)))))).
Qed.

Lemma distance_shuffle_rows_zero bed : forall g,
  forallb canonical bed = true ->
  distance_shuffle_rows 0 bed g
  = Ok (map reprint bed, mkRng (tape g) (pos g + List.length bed)).
Proof.
  induction bed as [|l rest IH]; intros g H.
  - simpl. rewrite Nat.add_0_r. now destruct g.
  - simpl in H. apply andb_prop in H. destruct H as [Hl Hrest].
    destruct (canonical_fields l Hl)
      as (c & s & e & tl & v1 & v2 & El & Hs & He & Cs & Ce & P1 & P2).
    change (distance_shuffle_rows 0 (l :: rest) g) with
      (toks' <- shuffle_toks (randval (- 0) 0 (tape g (pos g))) (tokens l) ;;
       '(out, g2) <- distance_shuffle_rows 0 rest
                       (mkRng (tape g) (S (pos g))) ;;
       Ok (print_row toks' :: out, g2)).
    assert (Hd : randval (- 0) 0 (tape g (pos g)) = 0).
    { unfold randval. simpl. now rewrite Z.mod_1_r. }
    rewrite Hd, El, shuffle_toks_row, Hs, He. cbn [bind].
    rewrite !Z.add_0_r, !Z.max_r by assumption. rewrite Cs, Ce.
    rewrite (IH _ Hrest). cbn [bind pos tape]. simpl map.
    change (reprint l) with (print_row (tokens l)). rewrite El.
    simpl List.length.
    now replace (S (pos g) + List.length rest)%nat
      with (pos g + S (List.length rest))%nat by lia.
Qed.

(** X5.  With the distance 0 the shuffle is the identity: a file of
    records whose start and end are non-negative and written in plain
    decimal is printed again line for line, only the line terminators
    becoming a newline, and one random number is drawn per line. *)
Theorem distance_shuffle_zero (bed : file) (dist : value) (g : rng) :
  int dist = Ok 0 -> forallb canonical bed = true ->
  distance_shuffle bed dist g
  = Ok (map reprint bed, mkRng (tape g) (pos g + List.length bed)).
Proof.
  intros HD Hbed. unfold distance_shuffle. rewrite HD. simpl.
  now apply distance_shuffle_rows_zero.
Qed.

(** X6.  [distance_shuffle] keeps [start <= end] and never widens a
    record, and a start that is not negative moves by [|dist|] at most,
    as the docstring says. *)
Theorem distance_shuffle_within_dist
  (bed : file) (dist : value) (D : Z) (g : rng) (out : file) (g' : rng)
  (i : nat) (l : string) (v1 v2 : Z) :
  int dist = Ok D ->
  distance_shuffle bed dist g = Ok (out, g') ->
  nth_error bed i = Some l ->
  row_start l = Ok v1 -> row_end l = Ok v2 -> v1 <= v2 ->
  exists l' s' e',
    nth_error out i = Some l' /\
    row_start l' = Ok s' /\ row_end l' = Ok e' /\
    s' <= e' /\ e' - s' <= v2 - v1 /\
    (0 <= v1 -> Z.abs (s' - v1) <= Z.abs D).
Proof.
  intros HD H Hi H1 H2 Hle. apply distance_shuffle_Ok in H.
  destruct H as (D' & HD' & H). rewrite HD in HD'. injection HD' as <-.
  apply distance_shuffle_rows_Ok in H. destruct H as (_ & _ & _ & Hrows).
  destruct (Hrows i l Hi) as (toks' & Hs & Hn).
  apply shuffle_toks_Ok in Hs. destruct Hs as (_ & _ & _ & Hst & Hen).
  pose proof (randval_range (- Z.abs D) (Z.abs D)
                (tape g (pos g + i)) ltac:(lia)) as Hr.
  fold (offset (Z.abs D) g i) in Hr.
  exists (print_row toks'), (Z.max 0 (v1 + offset (Z.abs D) g i)),
    (Z.max 0 (v2 + offset (Z.abs D) g i)).
  split; [exact Hn|]. split; [exact (Hst v1 H1)|].
  split; [exact (Hen v2 H2)|]. repeat split; lia.
Qed.

Lemma distance_shuffle_printed_app dist pre : forall rest g out g',
  distance_shuffle_rows dist pre g = Ok (out, g') ->
  distance_shuffle_printed dist (pre ++ rest)%list g
  = (out ++ distance_shuffle_printed dist rest g')%list.
Proof.
  induction pre as [|l t IH]; intros rest g out g' H; simpl in H.
  - now injection H as <- <-.
  - apply bind_Ok in H. destruct H as (toks' & Ht & H).
    apply bind_Ok in H. destruct H as ([out1 g2] & Hrec & H).
    injection H as <- <-. simpl. rewrite Ht. simpl. f_equal.
    now apply IH.
Qed.

(** X28.  What a [distance-shuffle] process prints is what
    [distance_shuffle] returns when it returns; when a row has a start or
    an end that is not an integer, the process has printed the rows before
    the first such row, shuffled, and nothing else. *)
Theorem distance_shuffle_stdout_partial (pre post : file) (l : string)
  (dist : value) (g : rng) (out : file) (g' : rng) :
  distance_shuffle pre dist g = Ok (out, g') ->
  distance_shuffle_stdout pre dist g = out /\
  (shufflable l = false ->
   distance_shuffle_stdout (pre ++ l :: post)%list dist g = out).
Proof.
  intros H. apply distance_shuffle_Ok in H. destruct H as (D & HD & H).
  unfold distance_shuffle_stdout. rewrite HD. split.
  - rewrite <- (app_nil_r pre).
    rewrite (distance_shuffle_printed_app _ _ [] _ _ _ H). simpl.
    apply app_nil_r.
  - intros Hl. rewrite (distance_shuffle_printed_app _ _ _ _ _ _ H).
    simpl.
    destruct (shuffle_toks (randval (- Z.abs D) (Z.abs D) (tape g' (pos g')))
                (tokens l)) as [toks'|e] eqn:E.
    + assert (Hs : shufflable l = true).
      { apply (shuffle_toks_Ok_iff
                 (randval (- Z.abs D) (Z.abs D) (tape g' (pos g')))).
        eauto. }
      congruence.
    + apply app_nil_r.
Qed.

(** *** [bed_sample] *)

Lemma sample_loop_fill {A} n (bed : list A) : forall i lines g,
  i + len bed <= n ->
  sample_loop n bed i lines g = Ok ((lines ++ bed)%list, g).
Proof.
  induction bed as [|x t IH]; intros i lines g H.
  - simpl. now rewrite app_nil_r.
  - unfold len in H. simpl List.length in H.
    simpl sample_loop. unfold sample_step.
    destruct (Z.ltb_spec i n); [|lia]. cbn [bind].
    rewrite IH by (unfold len; lia). now rewrite <- app_assoc.
Qed.

(** X7.  When the file has no more than [n] lines, [bed_sample] keeps
    all of them, in the order of the file, prints them one after the
    other, and draws no random number. *)
Theorem bed_sample_small_file (bed : file) (n : value) (k : Z) (g : rng) :
  int n = Ok k -> len bed <= k ->
  bed_sample_lines bed n g = Ok (bed, g) /\
  bed_sample bed n g = Ok (String.concat "" bed, g).
Proof.
  intros Hk Hlen.
  assert (E : bed_sample_lines bed n g = Ok (bed, g)).
  { unfold bed_sample_lines. rewrite Hk. simpl bind.
    now rewrite sample_loop_fill. }
  split; [exact E|]. exact (bed_sample_text _ _ _ _ _ E).
Qed.

(** X27.  For a positive sample size [k] and a file whose lines all end
    with their newline, [bed_sample] prints exactly [min k n] of the [n]
    lines, each read back from the text as it was in the file; they are
    the lines at pairwise distinct positions, the slot [j] holding the
    last line whose draw was [j], or the line [j] when there was none;
    one random number is drawn for each line after the [k]-th; when the
    file is not empty the output of the process is that text; and the
    loop is one pass: the reservoir on a file with one more line is one
    more step from the reservoir on the file. *)
Theorem bed_sample_terminated_lines
  (bed : file) (n : value) (k : Z) (g : rng) :
  int n = Ok k -> 0 < k -> forallb terminated bed = true ->
  (exists idxs g',
     bed_sample bed n g
     = Ok (String.concat "" (map (fun j => nth j bed "") idxs), g') /\
     readlines (String.concat "" (map (fun j => nth j bed "") idxs))
     = map (fun j => nth j bed "") idxs /\
     (bed <> [] ->
      bed_sample_stdout bed n g
      = String.concat "" (map (fun j => nth j bed "") idxs)) /\
     List.length idxs = Nat.min (Z.to_nat k) (List.length bed) /\
     NoDup idxs /\ Forall (fun j => (j < List.length bed)%nat) idxs /\
     (forall j i, nth_error idxs j = Some i ->
                  slot_holds k g (List.length bed) j i) /\
     tape g' = tape g /\
     pos g' = (pos g + (List.length bed - Z.to_nat k))%nat) /\
  (forall x,
     bed_sample_lines (bed ++ [x])%list n g
     = ('(lines, g1) <- bed_sample_lines bed n g ;;
        sample_step k (len bed) x lines g1)).
Proof.
  intros Hk Hpos Hterm. split.
  - destruct (bed_sample_indices bed n k g Hk)
      as (idxs & g' & Hrun & H1 & H2 & H3 & H4 & H5 & H6).
    exists idxs, g'. split; [exact (bed_sample_text _ _ _ _ _ Hrun)|].
    split; [apply readlines_concat; now apply forallb_nth|].
    split.
    { intros Hne. apply (bed_sample_stdout_text _ _ _ _ _ Hrun).
      - intros E. apply map_eq_nil in E. subst idxs.
        unfold len in H3. simpl in H3.
        destruct bed; [congruence|simpl in H3; lia].
      - apply Forall_nth; [|exact H2]. apply Forall_forall. intros l Hl.
        apply terminated_ends_LF.
        rewrite forallb_forall in Hterm. now apply Hterm. }
    unfold len, draws in *.
    refine (conj _ (conj H1 (conj H2 (conj H6 (conj H4 _))))); lia.
  - intros x. unfold bed_sample_lines. rewrite Hk. simpl bind.
    rewrite sample_loop_app. simpl Z.add.
    destruct (sample_loop k bed 0 [] g) as [[ls g1]|e]; [|reflexivity].
    simpl. destruct (sample_step k (len bed) x ls g1) as [[ls' g2]|e];
      reflexivity.
Qed.

(** *** The summary *)

Lemma ratio_mono c c' n :
  0 < n -> c <= c' -> (inject_Z c / inject_Z n <= inject_Z c' / inject_Z n)%Q.
Proof.
  intros Hn Hc. unfold Qdiv. apply Qmult_le_compat_r.
  - rewrite <- Zle_Qle. exact Hc.
  - apply Qinv_le_0_compat. change (inject_Z 0 <= inject_Z n)%Q.
    rewrite <- Zle_Qle. lia.
Qed.

Lemma ratio_le_const c n k :
  0 < n -> c <= k * n -> (inject_Z c / inject_Z n <= inject_Z k)%Q.
Proof.
  intros Hn Hc.
  assert (Hq : (inject_Z 0 < inject_Z n)%Q) by (rewrite <- Zlt_Qlt; exact Hn).
  apply Qle_shift_div_r; [exact Hq|].
  change (inject_Z c <= inject_Z (k * n))%Q. rewrite <- Zle_Qle. exact Hc.
Qed.

Lemma ratio_ge_const c n k :
  0 < n -> k * n <= c -> (inject_Z k <= inject_Z c / inject_Z n)%Q.
Proof.
  intros Hn Hc.
  assert (Hq : (inject_Z 0 < inject_Z n)%Q) by (rewrite <- Zlt_Qlt; exact Hn).
  apply Qle_shift_div_l; [exact Hq|].
  change (inject_Z (k * n) <= inject_Z c)%Q. rewrite <- Zle_Qle. exact Hc.
Qed.

Lemma sum_Permutation l l' : Permutation l l' -> sum l = sum l'.
Proof.
  induction 1 as [|x l l' _ IH|x y l|l l' l'' _ IH1 _ IH2].
  - reflexivity.
  - rewrite !sum_cons. lia.
  - rewrite !sum_cons. lia.
  - congruence.
Qed.

(** X8.  The summary does not depend on the order in which the rounds
    come back: simulated counts in another order give the same mean and
    the same p-value. *)
Theorem summarize_any_order (o : Z) (l l' : list Z) (r : report) :
  Permutation l l' -> summarize o l = Ok r ->
  summarize o l' = Ok (mkReport o l' (mean r) (pvalue r)).
Proof.
  intros Hp H. apply summarize_Ok in H. destruct H as (Hne & ->).
  assert (Hlen : len l' = len l)
    by (unfold len; now rewrite (Permutation_length Hp)).
  assert (Hsum : sum l' = sum l) by (symmetry; now apply sum_Permutation).
  assert (Hcnt : count_ge o l' = count_ge o l).
  { unfold count_ge. symmetry. apply sum_Permutation.
    now apply Permutation_map. }
  unfold summarize, truediv. rewrite Hlen, Hsum, Hcnt.
  pose proof (len_pos _ Hne) as Hpos.
  destruct (Z.eqb_spec (len l) 0); [lia|]. reflexivity.
Qed.

Lemma count_ge_antitone o o' l : o <= o' -> count_ge o' l <= count_ge o l.
Proof.
  intros Ho. induction l as [|s t IH]; [reflexivity|].
  rewrite !count_ge_cons, !Z.geb_leb.
  destruct (Z.leb_spec o' s), (Z.leb_spec o s); lia.
Qed.

(** X9.  On the same simulated counts, a larger observed count never
    gets a larger p-value, and the mean does not depend on it. *)
Theorem pvalue_antitone (o o' : Z) (l : list Z) (r r' : report) :
  o <= o' -> summarize o l = Ok r -> summarize o' l = Ok r' ->
  (pvalue r' <= pvalue r)%Q /\ mean r' = mean r.
Proof.
  intros Ho H H'. apply summarize_Ok in H. destruct H as (Hne & ->).
  apply summarize_Ok in H'. destruct H' as (_ & ->). simpl.
  split; [|reflexivity].
  apply ratio_mono; [now apply len_pos|now apply count_ge_antitone].
Qed.

Lemma sum_bounds lo hi l :
  Forall (fun s => lo <= s <= hi) l -> lo * len l <= sum l <= hi * len l.
Proof.
  induction 1 as [|s t Hs _ IH]; [unfold len, sum; simpl; lia|].
  rewrite sum_cons. unfold len in *. simpl List.length. lia.
Qed.

(** X10.  The mean reported lies between the smallest and the largest
    simulated count: between any two bounds that hold for all of them. *)
Theorem mean_between (o lo hi : Z) (l : list Z) (r : report) :
  Forall (fun s => lo <= s <= hi) l -> summarize o l = Ok r ->
  (inject_Z lo <= mean r)%Q /\ (mean r <= inject_Z hi)%Q.
Proof.
  intros Hb H. apply summarize_Ok in H. destruct H as (Hne & ->). simpl.
  pose proof (len_pos _ Hne) as Hpos. pose proof (sum_bounds _ _ _ Hb).
  split; [apply ratio_ge_const|apply ratio_le_const]; lia.
Qed.

(** *** [zclude] and [poverlap] *)

Lemma zclude_mask iv iu bed other exclude :
  bed <> [] ->
  zclude iv iu bed (Some other) exclude
  = Ok (if exclude then iv bed other else iu bed other,
        [mkDiag (len bed)
                (len (if exclude then iv bed other else iu bed other))
                (inject_Z (100 * (len bed
                   - len (if exclude then iv bed other else iu bed other)))
                 / inject_Z (len bed))
                (if exclude then "exclud" else "includ")]).
Proof.
  intros Hne. unfold zclude, truediv.
  pose proof (len_pos _ Hne).
  destruct (Z.eqb_spec (len bed) 0); [lia|]. reflexivity.
Qed.

(** X11.  On a file that is not empty, when [bedtools] returns no more
    lines than it was given, [zclude] reports the two line counts and a
    reduction between 0 and 100 percent. *)
Theorem zclude_reduction (iv iu : file -> file -> file)
  (bed other : file) (exclude : bool) :
  bed <> [] ->
  len (if exclude then iv bed other else iu bed other) <= len bed ->
  exists d,
    zclude iv iu bed (Some other) exclude
    = Ok (if exclude then iv bed other else iu bed other, [d]) /\
    diag_orig d = len bed /\
    diag_after d = len (if exclude then iv bed other else iu bed other) /\
    (0 <= diag_pct d)%Q /\ (diag_pct d <= 100)%Q.
Proof.
  intros Hne Hle. rewrite (zclude_mask iv iu bed other exclude Hne).
  eexists. split; [reflexivity|]. cbn [diag_orig diag_after diag_pct].
  pose proof (len_pos _ Hne) as Hpos.
  assert (H0 : 0 <= len (if exclude then iv bed other else iu bed other))
    by (unfold len; lia).
  split; [reflexivity|]. split; [reflexivity|]. split.
  - apply (ratio_ge_const _ _ 0); lia.
  - apply (ratio_le_const _ _ 100); lia.
Qed.

(** X12.  Without a genome file, [poverlap] fails its assertion when the
    shuffle distance is missing, and also when it is the integer 0 or the
    empty string: no file is filtered or extended before. *)
Theorem poverlap_needs_genome (iv iu : file -> file -> file)
  (sh : option file -> option file -> file -> option file -> bool -> rng -> file)
  (a b : file) (n : value) (t : Z) (chrom : bool)
  (exclude include : option file) (both : bool) (od : Z)
  (sd : option value) (seeds : nat -> rng * rng) :
  int n = Ok t ->
  match sd with Some v => truthy v | None => false end = false ->
  poverlap iv iu sh a b None n chrom exclude include both od sd seeds
  = Raise (AssertionError []).
Proof.
  intros Hn Hsd. unfold poverlap, poverlap_setup. rewrite Hn. cbn [bind].
  rewrite Hsd. reflexivity.
Qed.

(** The trials of [poverlap] raise nothing: the run ends as the stages
    before them did, or on the summary. *)
Lemma poverlap_Raise iv iu sh a b genome n chrom exclude include both od sd
  seeds e :
  poverlap iv iu sh a b genome n chrom exclude include both od sd seeds
  = Raise e ->
  poverlap_setup iv iu a b genome n exclude include od sd = Raise e \/
  (e = ZeroDivisionError /\
   exists t a3 b3 sd' diag,
     poverlap_setup iv iu a b genome n exclude include od sd
     = Ok (t, a3, b3, sd', diag) /\ t <= 0).
Proof.
  unfold poverlap. intros H.
  apply bind_Raise in H. destruct H as [H|(st & Hst & H)]; [now left|].
  right. destruct st as [[[[t a3] b3] sd'] stderr].
  apply bind_Raise in H. destruct H as [H|(r & _ & H)]; [|discriminate].
  apply summarize_Raise in H. destruct H as (-> & Hnil).
  split; [reflexivity|]. exists t, a3, b3, sd', stderr.
  split; [exact Hst|]. apply map_seq_nil in Hnil. lia.
Qed.

(** X13.  With a number of trials that is 0 or negative [poverlap] never
    reports.  When the stages before the trials succeed, the exception is
    the division by zero of the mean of no simulated count; when one of
    them raises, the run ends on that exception. *)
Theorem poverlap_no_trials (iv iu : file -> file -> file)
  (sh : option file -> option file -> file -> option file -> bool -> rng -> file)
  (a b : file) (genome : option file) (n : value) (t : Z) (chrom : bool)
  (exclude include : option file) (both : bool) (od : Z)
  (sd : option value) (seeds : nat -> rng * rng) :
  int n = Ok t -> t <= 0 ->
  (exists e,
     poverlap iv iu sh a b genome n chrom exclude include both od sd seeds
     = Raise e) /\
  (forall st,
     poverlap_setup iv iu a b genome n exclude include od sd = Ok st ->
     poverlap iv iu sh a b genome n chrom exclude include both od sd seeds
     = Raise ZeroDivisionError) /\
  (forall e,
     poverlap_setup iv iu a b genome n exclude include od sd = Raise e ->
     poverlap iv iu sh a b genome n chrom exclude include both od sd seeds
     = Raise e).
Proof.
  intros Hn Ht.
  assert (Hok : forall st,
    poverlap_setup iv iu a b genome n exclude include od sd = Ok st ->
    poverlap iv iu sh a b genome n chrom exclude include both od sd seeds
    = Raise ZeroDivisionError).
  { intros st Hst. destruct st as [[[[t' a3] b3] sd'] stderr].
    pose proof (poverlap_setup_Ok _ _ _ _ _ _ _ _ _ _ _ _ _ _ _ Hst)
      as (Hn' & _).
    rewrite Hn in Hn'. injection Hn' as <-.
    unfold poverlap. rewrite Hst. cbn [bind].
    now replace (Z.to_nat t) with 0%nat by lia. }
  assert (Hraise : forall e,
    poverlap_setup iv iu a b genome n exclude include od sd = Raise e ->
    poverlap iv iu sh a b genome n chrom exclude include both od sd seeds
    = Raise e).
  { intros e He. unfold poverlap. now rewrite He. }
  split; [|split; assumption].
  destruct (poverlap_setup iv iu a b genome n exclude include od sd)
    as [st|e] eqn:E; [exists ZeroDivisionError; eauto|exists e; eauto].
Qed.

(** X29.  [poverlap] reports exactly when the stages before the trials
    succeed and there is at least one trial: no round can fail the run,
    whatever the shuffling processes meet in the files. *)
Theorem poverlap_reports_iff (iv iu : file -> file -> file)
  (sh : option file -> option file -> file -> option file -> bool -> rng -> file)
  (a b : file) (genome : option file) (n : value) (chrom : bool)
  (exclude include : option file) (both : bool) (od : Z)
  (sd : option value) (seeds : nat -> rng * rng) :
  (exists r diag,
     poverlap iv iu sh a b genome n chrom exclude include both od sd seeds
     = Ok (r, diag))
  <-> (exists t a3 b3 sd' diag,
         poverlap_setup iv iu a b genome n exclude include od sd
         = Ok (t, a3, b3, sd', diag) /\ 1 <= t).
Proof.
  split.
  - intros (r & diag & H). apply poverlap_Ok in H.
    destruct H as (t & a3 & b3 & sd' & Hst & Hs).
    exists t, a3, b3, sd', diag. split; [exact Hst|].
    apply summarize_Ok in Hs. destruct Hs as (Hne & _).
    destruct (Z.leb_spec 1 t) as [|Hlt]; [assumption|]. exfalso.
    apply Hne. now replace (Z.to_nat t) with 0%nat by lia.
  - intros (t & a3 & b3 & sd' & diag & Hst & Ht).
    unfold poverlap. rewrite Hst. cbn [bind].
    match goal with |- context [summarize ?o ?l] =>
      destruct (summarize_total o l) as (r & Hr)
    end.
    + intros E. apply map_seq_nil in E. lia.
    + rewrite Hr. cbn [bind]. eauto.
Qed.

(** X14.  When the assertion on the genome file and the shuffle distance
    passes, the exclusion mask removes every record of [a], and an
    inclusion mask is given too, [poverlap] stops with a division by
    zero: the second filter counts an empty file. *)
Theorem poverlap_emptied_by_exclude (iv iu : file -> file -> file)
  (sh : option file -> option file -> file -> option file -> bool -> rng -> file)
  (a b : file) (genome : option file) (n : value) (t : Z) (chrom : bool)
  (ex inc : file) (both : bool) (od : Z)
  (sd : option value) (seeds : nat -> rng * rng) :
  int n = Ok t ->
  match genome, sd with
  | Some _, _ => true
  | None, Some v => truthy v
  | None, None => false
  end = true ->
  a <> [] -> iv a ex = [] ->
  poverlap iv iu sh a b genome n chrom (Some ex) (Some inc) both od sd seeds
  = Raise ZeroDivisionError.
Proof.
  intros Hn Hg Ha Hex. unfold poverlap, poverlap_setup. rewrite Hn.
  cbn [bind].
  assert (Hassert :
    match genome with
    | None => assert (match sd with Some v => truthy v | None => false end) []
    | Some _ => Ok tt
    end = Ok tt).
  { destruct genome as [gm|]; [reflexivity|].
    destruct sd as [v|]; [|discriminate]. now rewrite Hg. }
  rewrite Hassert. cbn [bind].
  rewrite (zclude_mask iv iu a ex true Ha). cbn [bind]. rewrite Hex.
  reflexivity.
Qed.

Lemma zclude_diagnostics iv iu bed other exclude out d :
  zclude iv iu bed other exclude = Ok (out, d) ->
  List.length d = match other with Some _ => 1%nat | None => 0%nat end.
Proof.
  unfold zclude. destruct other as [o|].
  - intros H. apply bind_Ok in H. destruct H as (pct & _ & H).
    now injection H as <- <-.
  - now intros [= <- <-].
Qed.

(** X15.  A run of [poverlap] that reports has written one diagnostic for
    each mask and each of the two files: two for every mask given. *)
Theorem poverlap_diagnostics (iv iu : file -> file -> file)
  (sh : option file -> option file -> file -> option file -> bool -> rng -> file)
  (a b : file) (genome : option file) (n : value) (chrom : bool)
  (exclude include : option file) (both : bool) (od : Z)
  (sd : option value) (seeds : nat -> rng * rng)
  (r : report) (diag : list diagnostic) :
  poverlap iv iu sh a b genome n chrom exclude include both od sd seeds
  = Ok (r, diag) ->
  List.length diag = (2 * masks exclude include)%nat.
Proof.
  intros H. apply poverlap_Ok in H.
  destruct H as (t & a3 & b3 & sd' & Hst & _).
  apply poverlap_setup_Ok in Hst.
  destruct Hst as (_ & a1 & e1 & a2 & e2 & b1 & e3 & b2 & e4
                   & Ha1 & Ha2 & Hb1 & Hb2 & _ & _ & ->).
  apply zclude_diagnostics in Ha1, Ha2, Hb1, Hb2.
  rewrite !length_app, Ha1, Ha2, Hb1, Hb2. unfold masks.
  destruct exclude, include; reflexivity.
Qed.

(** *** [fixle] *)

Lemma fixle_rows_Ok_labelled atype btype tc bed afh ofh bfh nb res :
  fixle_rows atype btype tc bed afh ofh bfh nb = Ok res ->
  forallb (labelled tc) bed = true.
Proof.
  intros H. destruct (forallb (labelled tc) bed) eqn:E; [reflexivity|].
  rewrite fixle_rows_Raise in H by exact E. discriminate.
Qed.

Lemma filter_split_Permutation {A} (p : A -> bool) l :
  Permutation (filter p l ++ filter (fun x => negb (p x)) l) l.
Proof.
  induction l as [|x t IH]; [constructor|]. simpl.
  destruct (p x); simpl.
  - now constructor.
  - symmetry. apply Permutation_cons_app. now symmetry.
Qed.

Lemma filter_and_incl {A} (p q : A -> bool) l :
  incl (filter (fun x => p x && q x) l) (filter p l).
Proof.
  intros x Hx. apply filter_In in Hx. destruct Hx as (Hin & H).
  apply andb_prop in H. apply filter_In. tauto.
Qed.

(** X16.  The first loop of [fixle] loses and repeats no row: the rows
    kept and the pool are together the rows of the file, each copied once,
    and the rows counted as [btype] are rows of the pool, [n_btypes] of
    them. *)
Theorem fixle_rows_partition (atype btype : string) (tc : Z) (bed : file)
  (a other b : file) (nb : Z) :
  fixle_rows atype btype tc bed [] [] [] 0 = Ok (a, other, b, nb) ->
  Permutation (a ++ other) (map reprint bed) /\
  incl b other /\ nb = len b /\ nb <= len other.
Proof.
  intros H. pose proof (fixle_rows_Ok_labelled _ _ _ _ _ _ _ _ _ H) as Hlab.
  rewrite (fixle_rows_labelled atype btype tc bed [] [] [] 0 Hlab) in H.
  injection H as <- <- <- <-. simpl app.
  split; [|split; [|split]].
  - rewrite <- map_app. apply Permutation_map. apply filter_split_Permutation.
  - apply incl_map.
    apply (filter_and_incl (fun l => negb (has_label tc atype l))).
  - unfold len. rewrite length_map. lia.
  - pose proof (filter_and_length (fun l => negb (has_label tc atype l))
                  (has_label tc btype) bed).
    unfold len. rewrite length_map. lia.
Qed.

(** X17.  Asked to keep and to swap the same label, [fixle] never
    reports: every row with that label is kept, none is left to swap, and
    the assertion fails (or a row without the label column raises
    before). *)
Theorem fixle_same_label (iu : file -> file -> file) (bed : file)
  (atype : string) (type_col n : Z) (seeds : nat -> rng) :
  fixle iu bed atype atype type_col n seeds
  = if forallb (labelled (type_col - 1)) bed
    then Raise (AssertionError ["no intervals found for"; atype])
    else Raise IndexError.
Proof.
  destruct (forallb (labelled (type_col - 1)) bed) eqn:E.
  - unfold fixle.
    rewrite (fixle_rows_labelled atype atype (type_col - 1) bed [] [] [] 0 E).
    cbn [bind].
    assert (H0 : filter (fun l => negb (has_label (type_col - 1) atype l)
                                  && has_label (type_col - 1) atype l) bed
                 = []).
    { clear E. induction bed as [|l t IH]; [reflexivity|]. simpl.
      destruct (has_label (type_col - 1) atype l); exact IH. }
    rewrite H0. reflexivity.
  - now apply fixle_unlabelled.
Qed.

Lemma nth_error_last {A} (l : list A) d :
  l <> [] -> nth_error l (List.length l - 1) = Some (last l d).
Proof.
  induction l as [|x t IH]; [congruence|]. intros _.
  destruct t as [|y t]; [reflexivity|].
  specialize (IH ltac:(discriminate)).
  replace (List.length (x :: y :: t) - 1)%nat
    with (S (List.length (y :: t) - 1)) by (simpl; lia).
  exact IH.
Qed.

Lemma getitem_last {A} (l : list A) d :
  l <> [] -> getitem l (-1) = Ok (last l d).
Proof.
  intros Hne. unfold getitem.
  assert (Hlen : (0 < List.length l)%nat) by (destruct l; [congruence|simpl; lia]).
  change (-1 <? 0) with true. cbv iota.
  destruct (Z.leb_spec 0 (-1 + Z.of_nat (List.length l))); [|lia].
  destruct (Z.ltb_spec (-1 + Z.of_nat (List.length l))
              (Z.of_nat (List.length l))); [|lia].
  cbn [andb].
  replace (Z.to_nat (-1 + Z.of_nat (List.length l)))
    with (List.length l - 1)%nat by lia.
  now rewrite (nth_error_last l d Hne).
Qed.

(** X18.  The label column is counted from 1; with [type_col = 0] the
    index is [-1] and [fixle] takes the last field of every row as its
    label, so no row is too short and no [IndexError] is raised. *)
Theorem fixle_column_zero (iu : file -> file -> file) (bed : file)
  (atype btype : string) (n : Z) (seeds : nat -> rng) :
  (forall l, label (0 - 1) l = Ok (last (tokens l) "")) /\
  forallb (labelled (0 - 1)) bed = true /\
  fixle iu bed atype btype 0 n seeds <> Raise IndexError.
Proof.
  assert (Hlab : forall l, label (0 - 1) l = Ok (last (tokens l) "")).
  { intros l. unfold label. apply getitem_last. apply split_not_nil. }
  assert (Hall : forallb (labelled (0 - 1)) bed = true).
  { apply forallb_forall. intros l _. unfold labelled. now rewrite Hlab. }
  split; [exact Hlab|]. split; [exact Hall|].
  unfold fixle.
  rewrite (fixle_rows_labelled atype btype (0 - 1) bed [] [] [] 0 Hall).
  cbn [bind]. intros H.
  apply bind_Raise in H. destruct H as [H|(u & _ & H)].
  - unfold assert in H.
    destruct (_ >? 0); discriminate.
  - apply summarize_Raise in H. destruct H; discriminate.
Qed.

(** X19.  [fixle] copies a row as it is but for the line terminator: the
    tokens joined again are the line without its trailing carriage
    returns and newlines, and copying a copy changes nothing. *)
Theorem reprint_line (l : string) :
  reprint l = rstrip is_crlf l ++ String LF EmptyString /\
  reprint (reprint l) = reprint l.
Proof.
  unfold reprint, print_row. split.
  - unfold tokens. now rewrite join_split.
  - fold (print_row (tokens l)).
    now rewrite (tokens_print_row _ (tokens_row_ok l)).
Qed.

(** X20.  With no trial to run, [n <= 0], and a label to swap that some
    row of the pool carries, [fixle] ends on a division by zero instead
    of a report. *)
Theorem fixle_no_trials (iu : file -> file -> file) (bed : file)
  (atype btype : string) (type_col n : Z) (seeds : nat -> rng) :
  n <= 0 ->
  forallb (labelled (type_col - 1)) bed = true ->
  existsb (fun l => negb (has_label (type_col - 1) atype l)
                    && has_label (type_col - 1) btype l) bed = true ->
  fixle iu bed atype btype type_col n seeds = Raise ZeroDivisionError.
Proof.
  intros Hn Hlab Hex. unfold fixle.
  rewrite (fixle_rows_labelled atype btype (type_col - 1) bed [] [] [] 0 Hlab).
  cbn [bind].
  set (is_b := fun l => negb (has_label (type_col - 1) atype l)
                        && has_label (type_col - 1) btype l) in *.
  assert (Hpos : 0 < 0 + len (filter is_b bed)).
  { apply existsb_exists in Hex. destruct Hex as (l & Hin & Hl).
    assert (Hf : In l (filter is_b bed)) by (apply filter_In; auto).
    unfold len. destruct (filter is_b bed); [destruct Hf|simpl; lia]. }
  unfold assert. destruct (Z.gtb_spec (0 + len (filter is_b bed)) 0); [|lia].
  cbn [bind]. replace (Z.to_nat n) with 0%nat by lia. reflexivity.
Qed.

(** *** [run] and the start of the script *)

Lemma lstrip_app_all p s t :
  string_forall p s = true -> lstrip p (s ++ t) = lstrip p t.
Proof.
  induction s as [|c r IH]; simpl; [reflexivity|].
  intros H. apply andb_prop in H. destruct H as [Hc Hr].
  rewrite Hc. now apply IH.
Qed.

(** X21.  [run] ignores the pipe characters that start a command, however
    many they are: the command goes to the shell with one pipe in front;
    and it raises [IndexError] exactly when the command prints nothing. *)
Theorem run_leading_pipes (nopen : string -> list string)
  (pipes cmd : string) :
  string_forall is_pipe pipes = true ->
  run nopen (pipes ++ cmd) = run nopen cmd /\
  (run nopen cmd = Raise IndexError <-> nopen (run_command cmd) = []).
Proof.
  intros Hp. split.
  - unfold run, run_command. now rewrite lstrip_app_all.
  - unfold run. destruct (nopen (run_command cmd)) as [|l t].
    + split; reflexivity.
    + split; [|discriminate].
      pose proof (getitem_nat (l :: t) 0 l eq_refl) as H.
      change (Z.of_nat 0) with 0 in H. rewrite H. discriminate.
Qed.

Lemma contains_app x pre post :
  contains x (pre ++ x :: post)%list = true.
Proof.
  unfold contains. rewrite existsb_app. simpl.
  now rewrite String.eqb_refl, orb_true_r.
Qed.

Lemma index_app x pre post :
  contains x pre = false ->
  index x (pre ++ x :: post)%list = Ok (len pre).
Proof.
  unfold contains, len. induction pre as [|y t IH]; simpl; intros H.
  - now rewrite String.eqb_refl.
  - apply orb_false_elim in H. destruct H as [Hy Ht].
    rewrite String.eqb_sym, Hy, (IH Ht). cbn [bind].
    f_equal. lia.
Qed.

Lemma remove_nth_app {A} (pre : list A) x post :
  remove_nth (pre ++ x :: post)%list (List.length pre) = (pre ++ post)%list.
Proof. induction pre as [|y t IH]; simpl; [reflexivity|now rewrite IH]. Qed.

Lemma pop_app {A} (pre : list A) x post :
  pop (pre ++ x :: post)%list (len pre) = Ok (x, (pre ++ post)%list).
Proof.
  unfold pop, len. rewrite length_app. simpl List.length.
  destruct (Z.ltb_spec (Z.of_nat (List.length pre)) 0); [lia|].
  destruct (Z.leb_spec 0 (Z.of_nat (List.length pre))); [|lia].
  destruct (Z.ltb_spec (Z.of_nat (List.length pre))
              (Z.of_nat (List.length pre + S (List.length post)))); [|lia].
  cbn [andb]. rewrite Nat2Z.id.
  rewrite nth_error_app2, Nat.sub_diag by lia. simpl.
  now rewrite remove_nth_app.
Qed.

Lemma pop_end {A} (pre : list A) :
  pop pre (len pre) = Raise IndexError.
Proof.
  unfold pop, len.
  destruct (Z.ltb_spec (Z.of_nat (List.length pre)) 0); [lia|].
  destruct (Z.ltb_spec (Z.of_nat (List.length pre))
              (Z.of_nat (List.length pre))); [lia|].
  now rewrite andb_false_r.
Qed.

(** X22.  At the start of the script the first [--ncpus] of the
    arguments and the argument after it are taken out, the rest keeping
    its order, and the number of processes is that argument read as an
    integer; without the option the arguments and the number are left as
    they are, and with the option as last argument an [IndexError] is
    raised. *)
Theorem main_ncpus_first (pre post : list string) (v : string) (NCPUS : Z) :
  contains "--ncpus" pre = false ->
  main_ncpus pre NCPUS = Ok (pre, NCPUS) /\
  main_ncpus (pre ++ "--ncpus" :: v :: post)%list NCPUS
    = (n <- int_of_string v ;; Ok ((pre ++ post)%list, n)) /\
  main_ncpus (pre ++ ["--ncpus"])%list NCPUS = Raise IndexError.
Proof.
  intros Hpre. unfold main_ncpus. split; [|split].
  - now rewrite Hpre.
  - rewrite contains_app, (index_app _ _ _ Hpre). cbn [bind].
    rewrite pop_app. cbn [bind]. rewrite pop_app. reflexivity.
  - rewrite contains_app, (index_app _ _ _ Hpre). cbn [bind].
    rewrite pop_app. cbn [bind]. rewrite app_nil_r. now rewrite pop_end.
Qed.

(** *** More on the three transformations *)

(** X23.  The distance is taken in absolute value: a negative distance
    shuffles exactly as the positive one does. *)
Theorem distance_shuffle_sign (bed : file) (dist dist' : value) (D : Z)
  (g : rng) :
  int dist = Ok D -> int dist' = Ok (- D) ->
  distance_shuffle bed dist' g = distance_shuffle bed dist g.
Proof.
  intros H H'. unfold distance_shuffle. rewrite H, H'. simpl.
  now rewrite Z.abs_opp.
Qed.

Lemma extend_line_canonical l :
  canonical l = true -> is_interval l = true ->
  extend_line 0 l = Ok (reprint l).
Proof.
  intros Hc Hi.
  destruct (canonical_fields l Hc)
    as (c & s & e & rest & v1 & v2 & El & Hs & He & Cs & Ce & P1 & P2).
  assert (Hle : v1 <= v2).
  { destruct (is_interval_fields l Hi)
      as (c' & s' & e' & rest' & w1 & w2 & El' & Hs' & He' & Hle & _).
    rewrite El in El'. injection El' as <- <- <- <-.
    rewrite Hs in Hs'. rewrite He in He'. congruence. }
  rewrite (extend_line_record 0 l c s e rest v1 v2 El Hs He).
  rewrite !Z.sub_0_r, !Z.add_0_r, !Z.max_r by assumption.
  destruct (Z.gtb_spec v1 v2); [lia|].
  unfold reprint. now rewrite Cs, Ce, El.
Qed.

(** X24.  An overlap distance of 1 is half a base on each side, that is
    none: [extend_bed] with 1 (as with 0) writes again, line for line, a
    file of records with [0 <= start <= end] in plain decimal. *)
Theorem extend_bed_one_base (fin : file) (bases : Z) :
  0 <= bases <= 1 ->
  forallb (fun l => canonical l && is_interval l) fin = true ->
  extend_bed fin bases = Ok (map reprint fin).
Proof.
  intros Hb Hfin. unfold extend_bed.
  replace (bases / 2) with 0 by (symmetry; apply Z.div_small; lia).
  induction fin as [|l rest IH]; [reflexivity|].
  simpl in Hfin. apply andb_prop in Hfin. destruct Hfin as [Hl Hrest].
  apply andb_prop in Hl. destruct Hl as [Hc Hi].
  simpl. rewrite (extend_line_canonical l Hc Hi). cbn [bind].
  now rewrite (IH Hrest).
Qed.

(** X25.  With a shuffle distance, the genome file and the [chrom] flag
    are ignored, as the docstring says: any two choices of them give the
    same outcome. *)
Theorem poverlap_distance_ignores_genome (iv iu : file -> file -> file)
  (sh : option file -> option file -> file -> option file -> bool -> rng -> file)
  (a b : file) (genome genome' : option file) (n : value)
  (chrom chrom' : bool) (exclude include : option file) (both : bool)
  (od : Z) (v : value) (seeds : nat -> rng * rng) :
  truthy v = true ->
  poverlap iv iu sh a b genome n chrom exclude include both od (Some v) seeds
  = poverlap iv iu sh a b genome' n chrom' exclude include both od (Some v)
      seeds.
Proof.
  intros Hv. unfold poverlap, poverlap_setup. rewrite Hv.
  destruct (int n) as [t|e]; [|reflexivity]. cbn [bind].
  assert (Ha : forall gm : option file,
            match gm with None => assert true [] | Some _ => Ok tt end = Ok tt)
    by (intros [|]; reflexivity).
  rewrite !Ha. cbn [bind].
  destruct (zclude iv iu a exclude true) as [[a1 e1]|e]; [|reflexivity].
  cbn [bind].
  destruct (zclude iv iu a1 include false) as [[a2 e2]|e]; [|reflexivity].
  cbn [bind].
  destruct (zclude iv iu b exclude true) as [[b1 e3]|e]; [|reflexivity].
  cbn [bind].
  destruct (zclude iv iu b1 include false) as [[b2 e4]|e]; [|reflexivity].
  cbn [bind].
  match goal with |- context [bind ?m _] =>
    match m with
    | (if negb (od =? 0) then _ else _) =>
        destruct m as [[a3 b3]|e]; [|reflexivity]
    end
  end.
  cbn [bind].
  destruct (int v) as [d|e]; reflexivity.
Qed.

Lemma zclude_Ok iv iu bed other exclude out d :
  zclude iv iu bed other exclude = Ok (out, d) ->
  out = masked iv iu other exclude bed.
Proof.
  unfold zclude, masked. destruct other as [o|].
  - intros H. apply bind_Ok in H. destruct H as (pct & _ & H).
    now injection H as <- _.
  - now intros [= <- _].
Qed.

(** X26.  The masks filter both files in every run, with a shuffle
    distance too: the observed count of a run that reports is the number
    of overlaps between [a] and [b] once the exclusion mask, then the
    inclusion mask, then the extension (when the overlap distance is not
    0) have been applied to each. *)
Theorem poverlap_observed (iv iu : file -> file -> file)
  (sh : option file -> option file -> file -> option file -> bool -> rng -> file)
  (a b : file) (genome : option file) (n : value) (chrom : bool)
  (exclude include : option file) (both : bool) (od : Z)
  (sd : option value) (seeds : nat -> rng * rng)
  (r : report) (diag : list diagnostic) :
  poverlap iv iu sh a b genome n chrom exclude include both od sd seeds
  = Ok (r, diag) ->
  let a2 := masked iv iu include false (masked iv iu exclude true a) in
  let b2 := masked iv iu include false (masked iv iu exclude true b) in
  exists a3 b3,
    (if od =? 0 then Ok a2 else extend_bed a2 od) = Ok a3 /\
    (if od =? 0 then Ok b2 else extend_bed b2 od) = Ok b3 /\
    observed r = overlaps iu a3 b3.
Proof.
  intros H. apply poverlap_Ok in H.
  destruct H as (t & a3 & b3 & sd' & Hst & Hr).
  apply poverlap_setup_Ok in Hst.
  destruct Hst as (_ & a1 & e1 & a2 & e2 & b1 & e3 & b2 & e4
                   & Ha1 & Ha2 & Hb1 & Hb2 & Ha3 & Hb3 & _).
  apply zclude_Ok in Ha1, Ha2, Hb1, Hb2. subst a1 a2 b1 b2.
  apply summarize_Ok in Hr. destruct Hr as (_ & ->).
  cbv zeta. exists a3, b3. cbn [observed].
  split; [exact Ha3|]. split; [exact Hb3|reflexivity].
Qed.

(* ===================================================================== *)
(** ** Concrete runs *)
(* ===================================================================== *)

(** The scenario of the specification, [chr1 5 10] extended by 20, is
    [chr1 0 20]. *)
Lemma extend_bed_start_le_end_witness :
  extend_bed edge_bed 20 = Ok edge_extended /\
  exists l v1 v2 s' e',
    nth_error edge_bed 0 = Some l /\
    row_start l = Ok v1 /\ row_end l = Ok v2 /\
    row_start (print_row ["chr1"; "0"; "20"; "CTCF"]) = Ok s' /\
    row_end (print_row ["chr1"; "0"; "20"; "CTCF"]) = Ok e' /\
    0 <= s' <= e' /\
    let start := Z.max 0 (v1 - 20 / 2) in
    let end_ := Z.max 0 (v2 + 20 / 2) in
    (start <= end_ -> s' = start /\ e' = end_) /\
    (start > end_ -> s' = (start + end_) / 2 /\ e' = (start + end_) / 2) /\
    (0 <= 20 -> 0 <= v1 <= v2 ->
       s' = Z.max 0 (v1 - 20 / 2) /\ e' = v2 + 20 / 2).
Proof.
  split; [reflexivity|].
  destruct (extend_bed_start_le_end edge_bed 20) as (_ & _ & Hout).
  destruct (Hout edge_extended eq_refl) as (_ & Hrows).
  exact (Hrows 0%nat (print_row ["chr1"; "0"; "20"; "CTCF"]) eq_refl).
Defined.

(** C1 as stated fails: with [dist = 10] and the offset [-7], the record
    [chr1 5 10] of width 5 becomes [chr1 0 3] of width 3. *)
Lemma distance_shuffle_shrinks_at_edge :
  0 <= 10 /\ offset 10 edge_source 0 = -7 /\
  distance_shuffle edge_bed (PInt 10) edge_source
    = Ok (edge_shuffled, mkRng (tape edge_source) 1) /\
  (row_start (hd "" edge_bed) = Ok 5 /\ row_end (hd "" edge_bed) = Ok 10) /\
  (row_start (hd "" edge_shuffled) = Ok 0
   /\ row_end (hd "" edge_shuffled) = Ok 3) /\
  3 - 0 <> 10 - 5.
Proof. repeat split; try reflexivity; lia. Qed.

Lemma distance_shuffle_offsets_witness :
  exists l' s' e',
    nth_error edge_shuffled 0 = Some l' /\
    row_start l' = Ok s' /\ row_end l' = Ok e' /\
    - Z.abs 10 <= offset (Z.abs 10) edge_source 0 <= Z.abs 10 /\
    s' = Z.max 0 (5 + offset (Z.abs 10) edge_source 0) /\
    e' = Z.max 0 (10 + offset (Z.abs 10) edge_source 0) /\
    0 <= s' /\
    (0 <= 5 + offset (Z.abs 10) edge_source 0 -> 5 <= 10 ->
       e' - s' = 10 - 5) /\
    (5 + offset (Z.abs 10) edge_source 0 < 0 ->
       s' = 0 /\ e' = Z.max 0 (10 + offset (Z.abs 10) edge_source 0) /\
       (5 < 10 -> e' - s' < 10 - 5)).
Proof.
  destruct (distance_shuffle_offsets edge_bed (PInt 10) 10 edge_source
              eq_refl) as (_ & _ & Hout).
  destruct (Hout edge_shuffled (mkRng (tape edge_source) 1) eq_refl)
    as (_ & Hrows).
  exact (Hrows 0%nat (print_row ["chr1"; "5"; "10"; "CTCF"]) 5 10
           eq_refl eq_refl eq_refl).
Defined.

Lemma shuffle_extend_frame_witness :
  frame_preserved edge_bed edge_shuffled /\
  frame_preserved edge_bed edge_extended.
Proof.
  destruct (shuffle_extend_frame edge_bed) as (Hs & He).
  split.
  - apply (Hs (PInt 10) edge_source edge_shuffled
              (mkRng (tape edge_source) 1)).
    reflexivity.
  - apply (He 20 edge_extended). reflexivity.
Defined.

(** C8 as stated fails: with [n = 0], and with [n = -3], [bed_sample]
    raises nothing, ends with an empty reservoir and prints the empty
    text. *)
Lemma bed_sample_zero_returns :
  0 <= 0 /\ -3 <= 0 /\
  bed_sample_lines sample_bed (PInt 0) sample_source
    = Ok ([], mkRng (tape sample_source) 5) /\
  bed_sample sample_bed (PInt 0) sample_source
    = Ok ("", mkRng (tape sample_source) 5) /\
  bed_sample sample_bed (PStr "-3") sample_source
    = Ok ("", mkRng (tape sample_source) 5) /\
  forall e, bed_sample sample_bed (PInt 0) sample_source <> Raise e.
Proof. repeat split; try reflexivity; try lia. discriminate. Qed.

Lemma bed_sample_nonpositive_witness :
  bed_sample_lines sample_bed (PStr "-3") sample_source
  = Ok ([], mkRng (tape sample_source)
                  (pos sample_source + List.length sample_bed)) /\
  bed_sample sample_bed (PStr "-3") sample_source
  = Ok ("", mkRng (tape sample_source)
                  (pos sample_source + List.length sample_bed)).
Proof.
  apply (bed_sample_nonpositive sample_bed (PStr "-3") (-3) sample_source).
  - reflexivity.
  - lia.
Defined.

Lemma zclude_empty_fails_witness :
  exists d,
    zclude Reference.intersect_v Reference.intersect_u
           scenario_b (Some scenario_a) true
    = Ok (if true then Reference.intersect_v scenario_b scenario_a
          else Reference.intersect_u scenario_b scenario_a, [d]).
Proof.
  apply (proj2 (zclude_empty_fails Reference.intersect_v
                  Reference.intersect_u scenario_a true) scenario_b).
  discriminate.
Defined.

(** With the distance ["0"] nothing moves: 100 trials, every simulated
    count is the observed one, and the p-value is 1. *)
Lemma pvalue_counts_ties_witness :
  exists r,
    scenario_run 100 (PStr "0") 7 = Ok (r, []) /\
    observed r = 1 /\ sims r = repeat 1 100 /\
    summarize 1 (repeat 1 100) = Ok r /\ (pvalue r == 1)%Q.
Proof.
  destruct (proj1 pvalue_counts_ties 1 (repeat 1 100) ltac:(discriminate))
    as (Hs & Hone).
  eexists. split; [vm_compute; reflexivity|].
  split; [reflexivity|]. split; [reflexivity|]. split; [exact Hs|].
  refine (Hone _). simpl. repeat constructor.
Defined.

(** C5 as stated fails: one trial that moves [B] by 1000 finds no
    overlap, so the observed count is 1 and the p-value is 0, below
    [1 / trials = 1]. *)
Lemma pvalue_below_floor :
  exists r,
    scenario_run 1 (PInt 1000) 2000 = Ok (r, []) /\
    1 <= 1 /\ 0 < observed r /\ observed r = 1 /\ sims r = [0] /\
    summarize 1 [0] = Ok r /\
    (pvalue r == 0)%Q /\ ~ (1 / inject_Z 1 <= pvalue r)%Q.
Proof.
  eexists. split; [vm_compute; reflexivity|].
  repeat split; try reflexivity; try lia.
  intros H. vm_compute in H. apply H. reflexivity.
Qed.

(** Two rounds with two random sources: the first leaves [B] where it
    is, the second moves it by 1000; one simulated count of the two
    reaches the observed one. *)
Lemma poverlap_rounds_follow_sources :
  poverlap Reference.intersect_v Reference.intersect_u
    Reference.unused_shuffle scenario_a scenario_b None (PInt 2) false
    None None false 0 (Some (PInt 1000))
    (fun i => match i with
              | O => (Reference.constant 0, Reference.constant 1000)
              | S _ => (Reference.constant 0, Reference.constant 2000)
              end)
  = Ok (mkReport 1 [1; 0] (inject_Z 1 / inject_Z 2)
                 (inject_Z 1 / inject_Z 2), []).
Proof. vm_compute. reflexivity. Qed.

(** A file [B] with a header line: the process that shuffles it ends on
    the header and prints nothing, every round counts 0 overlaps, and the
    run reports the p-value 0 for the observed count 1. *)
Lemma pvalue_range_witness :
  exists r,
    poverlap Reference.intersect_v Reference.intersect_u
      Reference.unused_shuffle scenario_a header_b None (PInt 2) false
      None None false 0 (Some (PInt 5))
      (fun _ => (edge_source, edge_source))
    = Ok (r, []) /\
    observed r = 1 /\ sims r = [0; 0] /\
    1 <= 2 /\ len (sims r) = 2 /\
    (exists a3 b3 sd',
       poverlap_setup Reference.intersect_v Reference.intersect_u
         scenario_a header_b None (PInt 2) None None 0 (Some (PInt 5))
       = Ok (2, a3, b3, sd', []) /\
       observed r = overlaps Reference.intersect_u a3 b3 /\
       sims r = map (fun i => poverlap_round Reference.intersect_u
                                Reference.unused_shuffle a3 b3 None None None
                                false false sd'
                                (fst (edge_source, edge_source))
                                (snd (edge_source, edge_source)))
                    (seq 0 (Z.to_nat 2))) /\
    pvalue r = (inject_Z (len (filter (fun s => observed r <=? s) (sims r)))
                / inject_Z 2)%Q /\
    (0 <= pvalue r)%Q /\ (pvalue r <= 1)%Q /\
    (Exists (fun s => observed r <= s) (sims r) ->
     (1 / inject_Z 2 <= pvalue r)%Q) /\
    (~ Exists (fun s => observed r <= s) (sims r) -> (pvalue r == 0)%Q).
Proof.
  eexists. split; [vm_compute; reflexivity|].
  split; [reflexivity|]. split; [reflexivity|].
  match goal with |- context [sims ?r] =>
    apply (pvalue_range Reference.intersect_v Reference.intersect_u
             Reference.unused_shuffle scenario_a header_b None (PInt 2)
             false None None false 0 (Some (PInt 5))
             (fun _ => (edge_source, edge_source))
             r [] 2)
  end.
  - vm_compute. reflexivity.
  - reflexivity.
Defined.

(** The scenario of the specification for [fixle]: 5 records are drawn
    from the pool of 7, the 3 rows labelled [Pol2] stay.  With the draws
    0 and 5 the sixth row of the pool takes the first slot; with the draws
    1 and 1 the seventh row takes the second slot; the counts of the
    rounds follow the sample.  A label that no row carries fails the
    assertion. *)
Lemma fixle_swap_label_witness :
  (fixle Reference.intersect_u fixle_bed "Pol2" "CTCF" 4 3 fixle_seeds
   = Raise (AssertionError ["no intervals found for"; "CTCF"]) <-> 5 = 0) /\
  (exists idxs g',
     bed_sample fixle_pool (PStr "5") sample_source
     = Ok (String.concat "" (map (fun j => nth j fixle_pool "") idxs), g') /\
     len idxs = 5 /\
     NoDup idxs /\ Forall (fun j => (j < 7)%nat) idxs /\
     (forall j i, nth_error idxs j = Some i ->
                  slot_holds 5 sample_source 7 j i) /\
     fixle_round Reference.intersect_u fixle_kept fixle_pool 5 sample_source
     = overlaps Reference.intersect_u fixle_kept
         (readlines
            (String.concat "" (map (fun j => nth j fixle_pool "") idxs))) /\
     (forallb is_line fixle_bed = true ->
      readlines (String.concat "" (map (fun j => nth j fixle_pool "") idxs))
      = map (fun j => nth j fixle_pool "") idxs)) /\
  bed_sample_lines fixle_pool (PStr "5") sample_source
  = Ok (map (fun j => nth j fixle_pool "") [5; 1; 2; 3; 4]%nat,
        mkRng (tape sample_source) 2) /\
  bed_sample_lines fixle_pool (PStr "5") (Reference.constant 1)
  = Ok (map (fun j => nth j fixle_pool "") [0; 6; 2; 3; 4]%nat,
        mkRng (fun _ => 1) 2) /\
  fixle Reference.intersect_u fixle_bed "Pol2" "CTCF" 4 3 fixle_seeds
  = Ok (mkReport 2 [1; 2; 2] (inject_Z 5 / inject_Z 3)
                 (inject_Z 2 / inject_Z 3)) /\
  fixle Reference.intersect_u fixle_bed "Pol2" "H2AZ" 4 3 fixle_seeds
  = Raise (AssertionError ["no intervals found for"; "H2AZ"]).
Proof.
  destruct (fixle_swap_label Reference.intersect_u fixle_bed "Pol2" "CTCF"
              4 3 fixle_seeds eq_refl) as (Hiff & Hpos).
  split; [exact Hiff|].
  split; [exact (proj1 (Hpos eq_refl) sample_source)|].
  split; [reflexivity|]. split; [reflexivity|].
  split; [exact (proj2 (Hpos eq_refl) eq_refl)|].
  reflexivity.
Defined.

(* ===================================================================== *)
(** ** Concrete runs of the further properties *)
(* ===================================================================== *)

Lemma extend_bed_twice_witness :
  (out <- extend_bed edge_bed 4 ;; extend_bed out 6)
  = extend_bed edge_bed (4 + 6).
Proof.
  apply (extend_bed_twice edge_bed 4 6); [lia|lia|reflexivity|reflexivity].
Defined.

Lemma distance_shuffle_zero_witness :
  distance_shuffle scenario_b (PStr "0") edge_source
  = Ok (map reprint scenario_b,
        mkRng (tape edge_source)
              (pos edge_source + List.length scenario_b)).
Proof.
  apply (distance_shuffle_zero scenario_b (PStr "0") edge_source);
    reflexivity.
Defined.

Lemma distance_shuffle_within_dist_witness :
  exists l' s' e',
    nth_error edge_shuffled 0 = Some l' /\
    row_start l' = Ok s' /\ row_end l' = Ok e' /\
    s' <= e' /\ e' - s' <= 10 - 5 /\
    (0 <= 5 -> Z.abs (s' - 5) <= Z.abs 10).
Proof.
  apply (distance_shuffle_within_dist edge_bed (PInt 10) 10 edge_source
           edge_shuffled (mkRng (tape edge_source) 1) 0
           (print_row ["chr1"; "5"; "10"; "CTCF"]) 5 10);
    try reflexivity.
  lia.
Defined.

Lemma distance_shuffle_sign_witness :
  distance_shuffle edge_bed (PStr "-10") edge_source
  = distance_shuffle edge_bed (PInt 10) edge_source.
Proof.
  apply (distance_shuffle_sign edge_bed (PInt 10) (PStr "-10") 10
           edge_source); reflexivity.
Defined.

Lemma extend_bed_one_base_witness :
  extend_bed scenario_b 1 = Ok (map reprint scenario_b).
Proof.
  apply (extend_bed_one_base scenario_b 1); [lia|reflexivity].
Defined.

Lemma bed_sample_small_file_witness :
  bed_sample_lines sample_bed (PStr "7") sample_source
  = Ok (sample_bed, sample_source) /\
  bed_sample sample_bed (PStr "7") sample_source
  = Ok (String.concat "" sample_bed, sample_source).
Proof.
  apply (bed_sample_small_file sample_bed (PStr "7") 7 sample_source).
  - reflexivity.
  - vm_compute. discriminate.
Defined.

(** Two of five records: the reservoir starts with the records 0 and 1,
    then the records 2, 3 and 4 replace those at the slots 0, 1 and 1. *)
Lemma bed_sample_terminated_lines_witness :
  (exists idxs g',
     bed_sample sample_bed (PStr "2") sample_source
     = Ok (String.concat "" (map (fun j => nth j sample_bed "") idxs), g') /\
     readlines (String.concat "" (map (fun j => nth j sample_bed "") idxs))
     = map (fun j => nth j sample_bed "") idxs /\
     (sample_bed <> [] ->
      bed_sample_stdout sample_bed (PStr "2") sample_source
      = String.concat "" (map (fun j => nth j sample_bed "") idxs)) /\
     List.length idxs = Nat.min (Z.to_nat 2) (List.length sample_bed) /\
     NoDup idxs /\ Forall (fun j => (j < List.length sample_bed)%nat) idxs /\
     (forall j i, nth_error idxs j = Some i ->
                  slot_holds 2 sample_source (List.length sample_bed) j i) /\
     tape g' = tape sample_source /\
     pos g' = (pos sample_source
               + (List.length sample_bed - Z.to_nat 2))%nat) /\
  readlines (bed_sample_stdout sample_bed (PStr "2") sample_source)
  = [print_row ["chr1"; "5"; "6"]; print_row ["chr1"; "9"; "10"]].
Proof.
  split; [|reflexivity].
  exact (proj1 (bed_sample_terminated_lines sample_bed (PStr "2") 2
                  sample_source eq_refl eq_refl eq_refl)).
Defined.

Lemma summarize_any_order_witness :
  summarize 1 [1; 0; 2]
  = Ok (mkReport 1 [1; 0; 2]
          (mean (mkReport 1 [0; 1; 2] (inject_Z 3 / inject_Z 3)
                          (inject_Z 2 / inject_Z 3)))
          (pvalue (mkReport 1 [0; 1; 2] (inject_Z 3 / inject_Z 3)
                            (inject_Z 2 / inject_Z 3)))).
Proof.
  apply (summarize_any_order 1 [0; 1; 2] [1; 0; 2]).
  - exact (perm_swap 1 0 [2]).
  - reflexivity.
Defined.

Lemma pvalue_antitone_witness :
  exists r r',
    summarize 1 [0; 1; 2] = Ok r /\ summarize 2 [0; 1; 2] = Ok r' /\
    (pvalue r' <= pvalue r)%Q /\ mean r' = mean r.
Proof.
  eexists. eexists. split; [reflexivity|]. split; [reflexivity|].
  apply (pvalue_antitone 1 2 [0; 1; 2]); [lia|reflexivity|reflexivity].
Defined.

Lemma mean_between_witness :
  exists r,
    summarize 1 [0; 1; 2] = Ok r /\
    (inject_Z 0 <= mean r)%Q /\ (mean r <= inject_Z 2)%Q.
Proof.
  eexists. split; [reflexivity|].
  apply (mean_between 1 0 2 [0; 1; 2]); [|reflexivity].
  repeat constructor; lia.
Defined.

Lemma zclude_reduction_witness :
  exists d,
    zclude Reference.intersect_v Reference.intersect_u
           scenario_b (Some scenario_a) true
    = Ok (if true then Reference.intersect_v scenario_b scenario_a
          else Reference.intersect_u scenario_b scenario_a, [d]) /\
    diag_orig d = len scenario_b /\
    diag_after d
    = len (if true then Reference.intersect_v scenario_b scenario_a
           else Reference.intersect_u scenario_b scenario_a) /\
    (0 <= diag_pct d)%Q /\ (diag_pct d <= 100)%Q.
Proof.
  apply (zclude_reduction Reference.intersect_v Reference.intersect_u
           scenario_b scenario_a true).
  - discriminate.
  - vm_compute. discriminate.
Defined.

Lemma poverlap_needs_genome_witness :
  scenario_run 5 (PInt 0) 3 = Raise (AssertionError []).
Proof.
  apply (poverlap_needs_genome Reference.intersect_v Reference.intersect_u
           Reference.unused_shuffle scenario_a scenario_b (PInt 5) 5);
    reflexivity.
Defined.

(** No trial: a division by zero when the files are ready, and the
    assertion when the genome file and the shuffle distance are both
    missing. *)
Lemma poverlap_no_trials_witness :
  scenario_run 0 (PInt 5) 3 = Raise ZeroDivisionError /\
  poverlap Reference.intersect_v Reference.intersect_u
    Reference.unused_shuffle scenario_a scenario_b None (PStr "-1") false
    (Some far_mask) None false 0 None
    (fun _ => (edge_source, edge_source))
  = Raise (AssertionError []).
Proof.
  split.
  - exact (proj1 (proj2 (poverlap_no_trials Reference.intersect_v
             Reference.intersect_u Reference.unused_shuffle scenario_a
             scenario_b None (PInt 0) 0 false None None false 0
             (Some (PInt 5))
             (fun _ => (Reference.constant 3, Reference.constant 3))
             eq_refl (Z.le_refl 0)))
           (0, scenario_a, scenario_b, Some 5, []) eq_refl).
  - apply (proj2 (proj2 (poverlap_no_trials Reference.intersect_v
             Reference.intersect_u Reference.unused_shuffle scenario_a
             scenario_b None (PStr "-1") (-1) false (Some far_mask) None
             false 0 None (fun _ => (edge_source, edge_source))
             eq_refl ltac:(lia)))).
    reflexivity.
Defined.

(** With a genome file, and without one but with a shuffle distance. *)
Lemma poverlap_emptied_by_exclude_witness :
  poverlap Reference.intersect_v Reference.intersect_u
    Reference.unused_shuffle scenario_a scenario_b (Some []) (PInt 3) false
    (Some scenario_b) (Some scenario_a) false 0 None
    (fun _ => (edge_source, edge_source))
  = Raise ZeroDivisionError /\
  poverlap Reference.intersect_v Reference.intersect_u
    Reference.unused_shuffle scenario_a scenario_b None (PInt 3) false
    (Some scenario_b) (Some scenario_a) false 0 (Some (PInt 5))
    (fun _ => (edge_source, edge_source))
  = Raise ZeroDivisionError.
Proof.
  split.
  - apply (poverlap_emptied_by_exclude Reference.intersect_v
             Reference.intersect_u Reference.unused_shuffle
             scenario_a scenario_b (Some []) (PInt 3) 3).
    + reflexivity.
    + reflexivity.
    + discriminate.
    + reflexivity.
  - apply (poverlap_emptied_by_exclude Reference.intersect_v
             Reference.intersect_u Reference.unused_shuffle
             scenario_a scenario_b None (PInt 3) 3).
    + reflexivity.
    + reflexivity.
    + discriminate.
    + reflexivity.
Defined.

(** A run whose shuffling process ends on the header line of [B]. *)
Lemma poverlap_diagnostics_witness :
  exists r diag,
    poverlap Reference.intersect_v Reference.intersect_u
      Reference.unused_shuffle scenario_a header_b None (PInt 2) false
      (Some far_mask) None false 0 (Some (PInt 5))
      (fun _ => (edge_source, edge_source))
    = Ok (r, diag) /\
    sims r = [0; 0] /\
    List.length diag = (2 * masks (Some far_mask) None)%nat.
Proof.
  eexists. eexists. split; [vm_compute; reflexivity|].
  split; [reflexivity|].
  match goal with |- List.length ?d = _ =>
    apply (poverlap_diagnostics Reference.intersect_v Reference.intersect_u
             Reference.unused_shuffle scenario_a header_b None (PInt 2)
             false (Some far_mask) None false 0 (Some (PInt 5))
             (fun _ => (edge_source, edge_source))
             (mkReport 1 [0; 0] (inject_Z 0 / inject_Z 2)
                       (inject_Z 0 / inject_Z 2)) d)
  end.
  vm_compute. reflexivity.
Defined.

Lemma poverlap_distance_ignores_genome_witness :
  poverlap Reference.intersect_v Reference.intersect_u
    Reference.unused_shuffle scenario_a scenario_b None (PInt 2) false
    None None false 0 (Some (PInt 5)) (fun _ => (edge_source, edge_source))
  = poverlap Reference.intersect_v Reference.intersect_u
      Reference.unused_shuffle scenario_a scenario_b (Some far_mask)
      (PInt 2) true None None false 0 (Some (PInt 5))
      (fun _ => (edge_source, edge_source)).
Proof.
  apply (poverlap_distance_ignores_genome Reference.intersect_v
           Reference.intersect_u Reference.unused_shuffle).
  reflexivity.
Defined.

Lemma fixle_rows_partition_witness :
  Permutation (fixle_kept ++ fixle_pool)%list (map reprint fixle_bed) /\
  incl fixle_swapped fixle_pool /\ 5 = len fixle_swapped /\
  5 <= len fixle_pool.
Proof.
  apply (fixle_rows_partition "Pol2" "CTCF" 3 fixle_bed).
  reflexivity.
Defined.

Lemma fixle_no_trials_witness :
  fixle Reference.intersect_u fixle_bed "Pol2" "CTCF" 4 0
        (fun _ => edge_source)
  = Raise ZeroDivisionError.
Proof.
  apply (fixle_no_trials Reference.intersect_u fixle_bed "Pol2" "CTCF" 4 0);
    [lia|reflexivity|reflexivity].
Defined.

Lemma run_leading_pipes_witness :
  run echo_shell "||ls" = run echo_shell "ls" /\
  (run echo_shell "ls" = Raise IndexError
   <-> echo_shell (run_command "ls") = []).
Proof.
  apply (run_leading_pipes echo_shell "||" "ls"). reflexivity.
Defined.

Lemma main_ncpus_first_witness :
  main_ncpus ["poverlap.py"; "poverlap"] 8
    = Ok (["poverlap.py"; "poverlap"], 8) /\
  main_ncpus (["poverlap.py"; "poverlap"]
              ++ "--ncpus" :: "4" :: ["a.bed"; "--ncpus"])%list 8
    = (n <- int_of_string "4" ;;
       Ok ((["poverlap.py"; "poverlap"] ++ ["a.bed"; "--ncpus"])%list, n)) /\
  main_ncpus (["poverlap.py"; "poverlap"] ++ ["--ncpus"])%list 8
    = Raise IndexError.
Proof.
  apply (main_ncpus_first ["poverlap.py"; "poverlap"] ["a.bed"; "--ncpus"]
           "4" 8).
  reflexivity.
Defined.

(** A run whose shuffling process ends on the header line of [B]. *)
Lemma poverlap_observed_witness :
  exists a3 b3,
    (if 0 =? 0
     then Ok (masked Reference.intersect_v Reference.intersect_u None false
                (masked Reference.intersect_v Reference.intersect_u
                   (Some far_mask) true scenario_a))
     else extend_bed
            (masked Reference.intersect_v Reference.intersect_u None false
               (masked Reference.intersect_v Reference.intersect_u
                  (Some far_mask) true scenario_a)) 0) = Ok a3 /\
    (if 0 =? 0
     then Ok (masked Reference.intersect_v Reference.intersect_u None false
                (masked Reference.intersect_v Reference.intersect_u
                   (Some far_mask) true header_b))
     else extend_bed
            (masked Reference.intersect_v Reference.intersect_u None false
               (masked Reference.intersect_v Reference.intersect_u
                  (Some far_mask) true header_b)) 0) = Ok b3 /\
    observed (mkReport 1 [0; 0] (inject_Z 0 / inject_Z 2)
                       (inject_Z 0 / inject_Z 2))
    = overlaps Reference.intersect_u a3 b3.
Proof.
  apply (poverlap_observed Reference.intersect_v Reference.intersect_u
           Reference.unused_shuffle scenario_a header_b None (PInt 2)
           false (Some far_mask) None false 0 (Some (PInt 5))
           (fun _ => (edge_source, edge_source))
           (mkReport 1 [0; 0] (inject_Z 0 / inject_Z 2)
                     (inject_Z 0 / inject_Z 2))
           [mkDiag 1 1 (inject_Z 0 / inject_Z 1) "exclud";
            mkDiag 3 3 (inject_Z 0 / inject_Z 3) "exclud"]).
  vm_compute. reflexivity.
Defined.

(** The records of [B], then a header line, then records again: the
    process prints the records before the header, shuffled. *)
Lemma distance_shuffle_stdout_partial_witness :
  distance_shuffle_stdout scenario_b (PInt 5) edge_source
  = [print_row ["chr1"; "148"; "248"]; print_row ["chr1"; "8"; "18"]] /\
  distance_shuffle_stdout
    (scenario_b ++ print_row ["chrom"; "start"; "end"] :: scenario_b)%list
    (PInt 5) edge_source
  = [print_row ["chr1"; "148"; "248"]; print_row ["chr1"; "8"; "18"]].
Proof.
  destruct (distance_shuffle_stdout_partial scenario_b scenario_b
              (print_row ["chrom"; "start"; "end"]) (PInt 5) edge_source
              [print_row ["chr1"; "148"; "248"]; print_row ["chr1"; "8"; "18"]]
              (mkRng (tape edge_source) 2) eq_refl) as (H1 & H2).
  split; [exact H1|]. apply H2. reflexivity.
Defined.
